(** * Ray bundles and the solar-disk source of [ray_bundle.py]

    A shallow embedding of the module [ray_bundle.py] of the tracer:
    the class [RayBundle] (three NumPy arrays behind setters that validate
    shapes, merged by [__add__]) and the generator [solar_disk_bundle].

    Modelling conventions.
    - A Python exception is a value of [exn]; a call returns a [result].
      The specification's [UninitializedField] is Python's [AttributeError]
      (an attribute read before it was assigned), its [DimensionMismatch] is
      the [ValueError] raised by the setters.
    - An attribute that has not been assigned yet is [None].
    - A method that assigns an attribute of [self] returns the outcome of the
      call together with the object as the call leaves it, also when the call
      raises.
    - NumPy arrays are the arrays of rank one and two, the ranks this module
      builds and accepts; the entries are of any type for the container class.
    - In the generator a float64 is a real number: arithmetic is exact. That
      reading is the code's up to rounding while [radius**2] and the squares
      of the coordinates stay clear of float64's underflow and overflow
      ([float_safe_radius]); the statements that rest on the disk test
      assume it. Module [Float64] is the float64 reading of the statements
      that build the vertices, and shows what the code does outside that
      range.
    - [random] is a sequence of variates in the unit interval and a position
      in it; [uniform] consumes [size] of them.
    - The [while] loop is run with fuel; [None] means the fuel ran out. *)

From Stdlib Require Import List Arith Bool Lia Reals Lra Psatz.
From Stdlib Require Floats.
Import ListNotations.

Set Implicit Arguments.

(** ** Exceptions and results *)

Inductive exn : Type :=
| AttributeError
| IndexError
| ValueError
| OverflowError.

Inductive result (X : Type) : Type :=
| Ok (x : X)
| Raise (e : exn).

Arguments Ok {X} x.
Arguments Raise {X} e.

Definition bind {X Y : Type} (m : result X) (k : X -> result Y) : result Y :=
  match m with
  | Ok x => k x
  | Raise e => Raise e
  end.

Declare Scope result_scope.
Delimit Scope result_scope with result.
Notation "x <- m ;; k" := (bind m (fun x => k))
  (at level 100, m at next level, right associativity) : result_scope.
Notation "' p <- m ;; k" := (bind m (fun p => k))
  (at level 100, p pattern, m at next level, right associativity) : result_scope.

(** The specification's names for the two exceptions the class raises. *)
Definition UninitializedField : exn := AttributeError.
Definition DimensionMismatch : exn := ValueError.

(** ** NumPy arrays of rank one and two *)

Module NumPy.

Section Arrays.
Variable A : Type.

(** [Arr1 data] has shape [(len data,)]; [Arr2 ncols rows] has shape
    [(len rows, ncols)], every row holding [ncols] entries. *)
Inductive ndarray : Type :=
| Arr1 (data : list A)
| Arr2 (ncols : nat) (rows : list (list A)).

Definition shape (a : ndarray) : list nat :=
  match a with
  | Arr1 data => [length data]
  | Arr2 ncols rows => [length rows; ncols]
  end.

(** What NumPy guarantees of a rank-two array: it is rectangular. *)
Definition rectangular (a : ndarray) : Prop :=
  match a with
  | Arr1 _ => True
  | Arr2 ncols rows => Forall (fun r => length r = ncols) rows
  end.

(** [t[i]] on a tuple. *)
Definition tuple_getitem (t : list nat) (i : nat) : result nat :=
  match nth_error t i with
  | Some n => Ok n
  | None => Raise IndexError
  end.

(** [s != t] on shape tuples. *)
Definition shape_ne (s t : list nat) : bool :=
  if list_eq_dec Nat.eq_dec s t then false else true.

Fixpoint zip_app (r1 r2 : list (list A)) : list (list A) :=
  match r1, r2 with
  | a :: r1', b :: r2' => (a ++ b) :: zip_app r1' r2'
  | _, _ => []
  end.

(** [N.hstack((a, b))]: rank-one arrays are joined end to end, rank-two
    arrays row by row (along the second axis); the ranks and the row counts
    must agree. *)
Definition hstack (a b : ndarray) : result ndarray :=
  match a, b with
  | Arr1 x, Arr1 y => Ok (Arr1 (x ++ y))
  | Arr2 ca ra, Arr2 cb rb =>
      if length ra =? length rb then Ok (Arr2 (ca + cb) (zip_app ra rb))
      else Raise ValueError
  | _, _ => Raise ValueError
  end.

(** [N.array([[],[],[]])] and [N.array([])]. *)
Definition array_3x0 : ndarray := Arr2 0 [[]; []; []].
Definition array_0 : ndarray := Arr1 [].

(** Observations: column [i] of a rank-two array ([a[:, i]]) and entry
    [i] of a rank-one array ([a[i]]), where they exist. *)
Fixpoint column_of (rows : list (list A)) (i : nat) : option (list A) :=
  match rows with
  | [] => Some []
  | r :: rs =>
      match nth_error r i, column_of rs i with
      | Some x, Some c => Some (x :: c)
      | _, _ => None
      end
  end.

Definition column (a : ndarray) (i : nat) : option (list A) :=
  match a with
  | Arr1 _ => None
  | Arr2 ncols rows => if i <? ncols then column_of rows i else None
  end.

Definition item (a : ndarray) (i : nat) : option A :=
  match a with
  | Arr1 data => nth_error data i
  | Arr2 _ _ => None
  end.

End Arrays.

Arguments Arr1 {A} data.
Arguments Arr2 {A} ncols rows.
Arguments array_3x0 {A}.
Arguments array_0 {A}.

End NumPy.

Import NumPy.

(** ** class RayBundle *)

Section RayBundleClass.
Variable A : Type.

Record RayBundle : Type := {
  _vertices : option (ndarray A);
  _direct : option (ndarray A);
  _energy : option (ndarray A)
}.

(** [RayBundle()]: no attribute is assigned. *)
Definition RayBundle_new : RayBundle :=
  {| _vertices := None; _direct := None; _energy := None |}.

(** A method runs on [self] and leaves [self] behind, raised or not. *)
Definition Method (X : Type) : Type := RayBundle -> result X * RayBundle.

Definition raise {X : Type} (e : exn) : Method X := fun self => (Raise e, self).

Definition mbind {X Y : Type} (m : Method X) (k : X -> Method Y) : Method Y :=
  fun self =>
    match m self with
    | (Ok x, self') => k x self'
    | (Raise e, self') => (Raise e, self')
    end.

(** Reading an attribute raises [AttributeError] when it was never set. *)
Definition getattr (field : RayBundle -> option (ndarray A)) : Method (ndarray A) :=
  fun self =>
    match field self with
    | Some a => (Ok a, self)
    | None => (Raise AttributeError, self)
    end.

Definition lift {X : Type} (r : result X) : Method X := fun self => (r, self).

End RayBundleClass.

Arguments RayBundle_new {A}.
Arguments raise {A X} e.

Declare Scope method_scope.
Delimit Scope method_scope with method.
Notation "x <- m ;; k" := (mbind m (fun x => k))
  (at level 100, m at next level, right associativity) : method_scope.
Notation "m ;; k" := (mbind m (fun _ => k))
  (at level 100, right associativity) : method_scope.

Section RayBundleMethods.
Variable A : Type.

Local Open Scope method_scope.

(** Outcome of a call on [obj], and the object a call that returned leaves. *)
Definition eval {X : Type} (m : Method A X) (obj : RayBundle A) : result X :=
  fst (m obj).

Definition exec {X : Type} (m : Method A X) (obj : RayBundle A)
  : result (RayBundle A) :=
  match m obj with
  | (Ok _, obj') => Ok obj'
  | (Raise e, _) => Raise e
  end.

Definition set_vertices (vert : ndarray A) : Method A unit :=
  fun self =>
    (Ok tt, {| _vertices := Some vert;
               _direct := _direct self;
               _energy := _energy self |}).

Definition get_vertices : Method A (ndarray A) := getattr (@_vertices A).

Definition get_directions : Method A (ndarray A) := getattr (@_direct A).

Definition get_energy : Method A (ndarray A) := getattr (@_energy A).

(** [self._vertices.shape[1]] *)
Definition get_num_rays : Method A nat :=
  v <- getattr (@_vertices A) ;;
  lift (tuple_getitem (shape v) 1).

Definition set_directions (directions : ndarray A) : Method A unit :=
  n <- get_num_rays ;;
  if shape_ne (shape directions) [3; n] then raise ValueError
  else fun self =>
    (Ok tt, {| _vertices := _vertices self;
               _direct := Some directions;
               _energy := _energy self |}).

Definition set_energy (energy : ndarray A) : Method A unit :=
  n <- get_num_rays ;;
  if shape_ne (shape energy) [n] then raise ValueError
  else fun self =>
    (Ok tt, {| _vertices := _vertices self;
               _direct := _direct self;
               _energy := Some energy |}).

Local Open Scope result_scope.

(** [self + added]: a new bundle filled through its own setters. *)
Definition __add__ (self added : RayBundle A) : result (RayBundle A) :=
  let newbund := RayBundle_new in
  v1 <- eval get_vertices self ;;
  v2 <- eval get_vertices added ;;
  v <- hstack v1 v2 ;;
  newbund <- exec (set_vertices v) newbund ;;
  d1 <- eval get_directions self ;;
  d2 <- eval get_directions added ;;
  d <- hstack d1 d2 ;;
  newbund <- exec (set_directions d) newbund ;;
  e1 <- eval get_energy self ;;
  e2 <- eval get_energy added ;;
  e <- hstack e1 e2 ;;
  newbund <- exec (set_energy e) newbund ;;
  Ok newbund.

(** [self.empty_bund()]; [self] is not used by the body. *)
Definition empty_bund (self : RayBundle A) : result (RayBundle A) :=
  let empty := RayBundle_new in
  let empty_array := array_3x0 in
  empty <- exec (set_vertices empty_array) empty ;;
  empty <- exec (set_directions empty_array) empty ;;
  empty <- exec (set_energy array_0) empty ;;
  Ok empty.

(** Ray [i] of a bundle, field by field, where the field is set and has
    such an index. *)
Definition field_of {X : Type} (r : result (ndarray A))
  (obs : ndarray A -> option X) : option X :=
  match r with
  | Ok a => obs a
  | Raise _ => None
  end.

Definition vertex (b : RayBundle A) (i : nat) : option (list A) :=
  field_of (eval get_vertices b) (fun a => column a i).

Definition direction (b : RayBundle A) (i : nat) : option (list A) :=
  field_of (eval get_directions b) (fun a => column a i).

Definition energy (b : RayBundle A) (i : nat) : option A :=
  field_of (eval get_energy b) (fun a => item a i).

(** The data model of the class: [n] rays, vertices and directions in the
    columns of two 3-by-n arrays, one energy per ray. *)
Definition consistent (b : RayBundle A) (n : nat) : Prop :=
  exists v d e,
    _vertices b = Some v /\ _direct b = Some d /\ _energy b = Some e /\
    rectangular v /\ rectangular d /\
    shape v = [3; n] /\ shape d = [3; n] /\ shape e = [n].

(** All three attributes are assigned, each with an array of its kind:
    3-row arrays for vertices and directions, a rank-one array for energy. *)
Definition populated (b : RayBundle A) : Prop :=
  exists v d e nv nd ne,
    _vertices b = Some v /\ _direct b = Some d /\ _energy b = Some e /\
    rectangular v /\ rectangular d /\
    shape v = [3; nv] /\ shape d = [3; nd] /\ shape e = [ne].

End RayBundleMethods.

(** ** Vectors and matrices of the generator *)

Local Open Scope R_scope.

(** A 1D 3-array, or a 3-by-1 column. *)
Record vec3 : Type := Vec3 { c0 : R; c1 : R; c2 : R }.

(** A 3-by-3 array, by rows. *)
Record mat3 : Type := Mat3 { row0 : vec3; row1 : vec3; row2 : vec3 }.

Definition vec_list (v : vec3) : list R := [c0 v; c1 v; c2 v].

Definition inner (a b : vec3) : R := c0 a * c0 b + c1 a * c1 b + c2 a * c2 b.

Definition norm2 (a : vec3) : R := inner a a.


Definition vadd (a b : vec3) : vec3 :=
  Vec3 (c0 a + c0 b) (c1 a + c1 b) (c2 a + c2 b).


(** [N.dot(m, v)] for a 3-by-3 [m] and a 1D [v]. *)
Definition dot (m : mat3) (v : vec3) : vec3 :=
  Vec3 (inner (row0 m) v) (inner (row1 m) v) (inner (row2 m) v).

(** [N.cross(a, b)] *)
Definition cross (a b : vec3) : vec3 :=
  Vec3 (c1 a * c2 b - c2 a * c1 b)
       (c2 a * c0 b - c0 a * c2 b)
       (c0 a * c1 b - c1 a * c0 b).

(** [N.vstack((a, b, c))] of three 1D 3-arrays. *)
Definition vstack (a b c : vec3) : mat3 := Mat3 a b c.

(** [x == y] and [x > y] on floats. *)
Definition Reqb (x y : R) : bool := if Req_dec_T x y then true else false.
Definition Rgtb (x y : R) : bool := if Rgt_dec x y then true else false.

(** [N.all(v == 0)] *)
Definition all_zero (v : vec3) : bool :=
  Reqb (c0 v) 0 && Reqb (c1 v) 0 && Reqb (c2 v) 0.

(** The reference axis of the generator: a vector of the xy plane at right
    angles to [direction], or the x axis when that vector vanishes. *)
Definition perp_axis (direction : vec3) : vec3 :=
  let perp := Vec3 (c1 direction) (- c0 direction) 0 in
  if all_zero perp then Vec3 1 0 0 else perp.

(** [N.dot(m, a)] for a 3-by-3 [m] and a 3-by-n [a]. *)
Fixpoint lincomb (r : vec3) (xs ys zs : list R) : list R :=
  match xs, ys, zs with
  | x :: xs', y :: ys', z :: zs' =>
      (c0 r * x + c1 r * y + c2 r * z) :: lincomb r xs' ys' zs'
  | _, _, _ => []
  end.

Definition dot_array (m : mat3) (a : ndarray R) : result (ndarray R) :=
  match a with
  | Arr2 n [xs; ys; zs] =>
      Ok (Arr2 n [lincomb (row0 m) xs ys zs;
                  lincomb (row1 m) xs ys zs;
                  lincomb (row2 m) xs ys zs])
  | _ => Raise ValueError
  end.

(** [a + center] for a 3-by-n [a] and a 3-by-1 [center] (broadcast along
    the rows). *)
Definition add_column (a : ndarray R) (center : vec3) : result (ndarray R) :=
  match a with
  | Arr2 n [xs; ys; zs] =>
      Ok (Arr2 n [map (fun x => x + c0 center) xs;
                  map (fun y => y + c1 center) ys;
                  map (fun z => z + c2 center) zs])
  | _ => Raise ValueError
  end.

(** [a[i]] on a 1D array. *)
Definition getitem (a : list R) (i : nat) : result R :=
  match nth_error a i with
  | Some x => Ok x
  | None => Raise IndexError
  end.

Fixpoint set_nth (l : list R) (i : nat) (x : R) : list R :=
  match l, i with
  | [], _ => []
  | _ :: l', O => x :: l'
  | y :: l', S i' => y :: set_nth l' i' x
  end.

(** [a[:, i] = v] for a 3-by-n [a]. *)
Definition setitem_column (a : ndarray R) (i : nat) (v : vec3)
  : result (ndarray R) :=
  match a with
  | Arr2 n [xs; ys; zs] =>
      if i <? n then
        Ok (Arr2 n [set_nth xs i (c0 v); set_nth ys i (c1 v); set_nth zs i (c2 v)])
      else Raise IndexError
  | _ => Raise ValueError
  end.

(** [N.ones(n, dtype=N.bool)], [N.zeros(n)], [mask.any()]. *)
Definition ones (n : nat) : list bool := repeat true n.
Definition zeros (n : nat) : list R := repeat 0 n.
Definition any (mask : list bool) : bool := existsb (fun b => b) mask.

Definition count_true (mask : list bool) : nat :=
  length (filter (fun b => b) mask).

(** The entries of [xs] where [mask] holds take the values of [vals], in
    order; an entry for which no value is left keeps its own (the batches
    of this module hold one value per ray, so the values do not run out). *)
Fixpoint put_mask (xs : list R) (mask : list bool) (vals : list R) : list R :=
  match xs, mask with
  | x :: xs', true :: mask' =>
      match vals with
      | v :: vals' => v :: put_mask xs' mask' vals'
      | [] => x :: put_mask xs' mask' []
      end
  | x :: xs', false :: mask' => x :: put_mask xs' mask' vals
  | _, _ => xs
  end.

(** [xs**2 + ys**2 > r2], entry by entry ([xs] and [ys] have one entry per
    ray, so the shapes agree). *)
Fixpoint outside (xs ys : list R) (r2 : R) : list bool :=
  match xs, ys with
  | x :: xs', y :: ys' => Rgtb (x ^ 2 + y ^ 2) r2 :: outside xs' ys' r2
  | _, _ => []
  end.

(** ** solar_disk_bundle *)

Section SolarDisk.

(** [spatial_geometry.general_axis_rotation], imported by the module: the
    rotation matrix about an axis by an angle. *)
Variable general_axis_rotation : vec3 -> R -> mat3.

(** [xs[mask] = vals] with more values than the mask selects: NumPy either
    consumes the leading values or, when [strict_assignment] holds, refuses
    the assignment with a [ValueError], depending on its release. *)
Variable strict_assignment : bool.

(** What [N.empty] finds in the storage it hands out: for the 3-by-n array of
    directions (row, column) and for the two coordinate arrays. *)
Variable uninit_directions : nat -> nat -> R.
Variable uninit_xs uninit_ys : nat -> R.

(** The variates of the generator behind [numpy.random], each in the unit
    interval. *)
Variable rng : nat -> R.

(** [random.uniform(low, high, size)]: [size] fresh variates, scaled. The
    state is the position in [rng]. *)
Definition uniform (low high : R) (size : nat) (pos : nat) : list R * nat :=
  (map (fun k => low + (high - low) * rng (pos + k)%nat) (seq 0 size),
   (pos + size)%nat).

(** [xs[mask] = vals] *)
Definition setitem_mask (xs : list R) (mask : list bool) (vals : list R)
  : result (list R) :=
  if negb (length mask =? length xs) then Raise IndexError
  else if strict_assignment then
    if length vals =? count_true mask then Ok (put_mask xs mask vals)
    else
      match vals with
      | [v] => Ok (put_mask xs mask (repeat v (count_true mask)))
      | _ => Raise ValueError
      end
  else Ok (put_mask xs mask vals).

(** The body of [for ray in xrange(num_rays)], over the rays still to do. *)
Fixpoint direction_loop (perp direction : vec3) (theta phi : list R)
  (rays : list nat) (directions : ndarray R) : result (ndarray R) :=
  match rays with
  | [] => Ok directions
  | ray :: rays' =>
      (t <- getitem theta ray ;;
       let dir := dot (general_axis_rotation perp t) direction in
       p <- getitem phi ray ;;
       let dir := dot (general_axis_rotation direction p) dir in
       directions <- setitem_column directions ray dir ;;
       direction_loop perp direction theta phi rays' directions)%result
  end.

(** [while not_inside.any(): ...]: the outcome and the position in [rng]
    when the loop ends within [fuel] rounds. *)
Fixpoint rejection_loop (fuel : nat) (radius : R) (not_inside : list bool)
  (xs ys : list R) (pos : nat) : option (result (list R * list R) * nat) :=
  if any not_inside then
    match fuel with
    | O => None
    | S fuel' =>
        let '(vx, pos) := uniform (- radius) radius (length not_inside) pos in
        match setitem_mask xs not_inside vx with
        | Raise e => Some (Raise e, pos)
        | Ok xs =>
            let '(vy, pos) := uniform (- radius) radius (length not_inside) pos in
            match setitem_mask ys not_inside vy with
            | Raise e => Some (Raise e, pos)
            | Ok ys =>
                rejection_loop fuel' radius (outside xs ys (radius ^ 2)) xs ys pos
            end
        end
    end
  else Some (Ok (xs, ys), pos).

(** [N.empty((3, n))] *)
Definition empty_3xn (n : nat) : ndarray R :=
  Arr2 n [map (uninit_directions 0) (seq 0 n);
          map (uninit_directions 1) (seq 0 n);
          map (uninit_directions 2) (seq 0 n)].

(** The last four statements: the bundle built from the sampled points. *)
Definition make_bundle (vertices directions : ndarray R)
  : result (RayBundle R) :=
  (let rayb := RayBundle_new in
   rayb <- exec (set_vertices vertices) rayb ;;
   rayb <- exec (set_directions directions) rayb ;;
   Ok rayb)%result.

Definition solar_disk_bundle (fuel : nat) (num_rays : nat)
  (center direction : vec3) (radius ang_range : R) (pos : nat)
  : option (result (RayBundle R) * nat) :=
  let '(phi, pos) := uniform 0 (2 * PI) num_rays pos in
  let '(theta, pos) := uniform 0 ang_range num_rays pos in
  let perp := Vec3 (c1 direction) (- c0 direction) 0 in
  let perp := if all_zero perp then Vec3 1 0 0 else perp in
  match direction_loop perp direction theta phi (seq 0 num_rays)
          (empty_3xn num_rays) with
  | Raise e => Some (Raise e, pos)
  | Ok directions =>
      let not_inside := ones num_rays in
      let xs := map uninit_xs (seq 0 num_rays) in
      let ys := map uninit_ys (seq 0 num_rays) in
      match rejection_loop fuel radius not_inside xs ys pos with
      | None => None
      | Some (Raise e, pos) => Some (Raise e, pos)
      | Some (Ok (xs, ys), pos) =>
          let rot := vstack perp (cross direction perp) direction in
          let vertices_local := Arr2 num_rays [xs; ys; zeros num_rays] in
          let outcome :=
            (vertices_global <- dot_array rot vertices_local ;;
             vertices <- add_column vertices_global center ;;
             make_bundle vertices directions)%result in
          Some (outcome, pos)
      end
  end.

End SolarDisk.

(** Modelled from the spec: the rotation primitive [general_axis_rotation]
    lives in the module [spatial_geometry], which is not part of these
    sources; the specification takes it as a pure function from an axis and an
    angle to a rotation operator. This is the axis-angle matrix of
    Rodrigues' formula, the instance the examples run on. *)
Definition axis_angle_rotation (axis : vec3) (angle : R) : mat3 :=
  let s := sin angle in
  let c := cos angle in
  let v := 1 - c in
  let x := c0 axis in
  let y := c1 axis in
  let z := c2 axis in
  Mat3 (Vec3 (x * x * v + c) (x * y * v - z * s) (x * z * v + y * s))
       (Vec3 (y * x * v + z * s) (y * y * v + c) (y * z * v - x * s))
       (Vec3 (z * x * v - y * s) (z * y * v + x * s) (z * z * v + c)).

(** Modelled from the spec: [general_axis_rotation] is not part of these
    sources; the specification has it return the rotation operator about an
    axis by an angle. Of a rotation the generator needs this much: a turn by
    the zero angle about an axis that is not the zero vector moves nothing,
    and a turn about a unit axis fixes the axis. *)
Definition is_rotation (rotation : vec3 -> R -> mat3) : Prop :=
  (forall axis v, axis <> Vec3 0 0 0 -> dot (rotation axis 0) v = v) /\
  (forall axis angle, norm2 axis = 1 -> dot (rotation axis angle) axis = axis).



(** ** What the generator computes, ray by ray *)

(** The direction of a ray: [direction] tilted about [perp] by [t], then
    spun about [direction] by [p]. *)
Definition ray_direction (rotation : vec3 -> R -> mat3) (direction : vec3)
  (t p : R) : vec3 :=
  dot (rotation direction p) (dot (rotation (perp_axis direction) t) direction).

(** The frame of the disk and the vertex of a ray sampled at [(x, y)]. *)
Definition disk_frame (direction : vec3) : mat3 :=
  let perp := perp_axis direction in
  vstack perp (cross direction perp) direction.

Definition ray_vertex (center direction : vec3) (x y : R) : vec3 :=
  vadd (dot (disk_frame direction) (Vec3 x y 0)) center.

(** The vertices array: the framed local points, moved by [center]. *)
Definition sampled_vertices (n : nat) (center direction : vec3)
  (xs ys : list R) : ndarray R :=
  let rot := disk_frame direction in
  Arr2 n [map (fun x => x + c0 center) (lincomb (row0 rot) xs ys (zeros n));
          map (fun y => y + c1 center) (lincomb (row1 rot) xs ys (zeros n));
          map (fun z => z + c2 center) (lincomb (row2 rot) xs ys (zeros n))].

(** Variate [k] scaled to the side of the square around the disk. *)
Definition square_draw (rng : nat -> R) (radius : R) (k : nat) : R :=
  - radius + (radius - - radius) * rng k.

(** The radii for which the real-number reading of the disk test
    [xs**2 + ys**2 > radius**2] is the code's up to rounding: [radius**2]
    and the squares of the coordinates, float64 numbers in the code, stay
    clear of float64's underflow (below about 1e-308, where a square rounds
    to zero) and of its overflow (above about 1e308, where [radius**2]
    raises [OverflowError]). *)
Definition float_safe_radius (radius : R) : Prop :=
  1e-150 <= radius <= 1e150.

(** The first batch of points of a call that starts at position [pos]
    (the variates after the [2 n] angles) falls in the disk. *)
Definition first_batch_inside (rng : nat -> R) (radius : R) (n pos : nat)
  : Prop :=
  forall i, (i < n)%nat ->
    square_draw rng radius (pos + n + n + i) ^ 2
    + square_draw rng radius (pos + n + n + n + i) ^ 2 <= radius ^ 2.

(** ** The vertices in float64 *)

(** The statements of [solar_disk_bundle] that build the vertices (lines
    86 to 88 and 96 to 111), on binary64 numbers with their rounding,
    underflow and overflow. The loop over the rays in between neither reads
    nor writes what these statements use; [pos] is the position in the random
    sequence when the rejection loop is reached. *)
Module Float64.

Import PrimFloat.

Record vec3 : Type := Vec3 { c0 : float; c1 : float; c2 : float }.

Record mat3 : Type := Mat3 { row0 : vec3; row1 : vec3; row2 : vec3 }.

(** [random.uniform(low, high, size)]: [low + (high - low) * u]. *)
Definition uniform (rng : nat -> float) (low high : float) (size pos : nat)
  : list float * nat :=
  (map (fun k => (low + (high - low) * rng (pos + k)%nat)%float) (seq 0 size),
   (pos + size)%nat).

(** [N.all(v == 0)]: the float comparison, under which [-0.0 == 0]. *)
Definition all_zero (v : vec3) : bool :=
  (c0 v =? 0)%float && (c1 v =? 0)%float && (c2 v =? 0)%float.

Definition perp_axis (direction : vec3) : vec3 :=
  let perp := Vec3 (c1 direction) (- c0 direction)%float 0%float in
  if all_zero perp then Vec3 1%float 0%float 0%float else perp.

(** [N.cross(a, b)] *)
Definition cross (a b : vec3) : vec3 :=
  Vec3 (c1 a * c2 b - c2 a * c1 b)%float
       (c2 a * c0 b - c0 a * c2 b)%float
       (c0 a * c1 b - c1 a * c0 b)%float.

Definition vstack (a b c : vec3) : mat3 := Mat3 a b c.

(** [N.dot(m, a)] for a 3-by-3 [m] and a 3-by-n [a]. *)
Fixpoint lincomb (r : vec3) (xs ys zs : list float) : list float :=
  match xs, ys, zs with
  | x :: xs', y :: ys', z :: zs' =>
      (c0 r * x + c1 r * y + c2 r * z)%float :: lincomb r xs' ys' zs'
  | _, _, _ => []
  end.

Definition dot_array (m : mat3) (a : ndarray float) : result (ndarray float) :=
  match a with
  | Arr2 n [xs; ys; zs] =>
      Ok (Arr2 n [lincomb (row0 m) xs ys zs;
                  lincomb (row1 m) xs ys zs;
                  lincomb (row2 m) xs ys zs])
  | _ => Raise ValueError
  end.

(** [a + center] for a 3-by-n [a] and a 3-by-1 [center]. *)
Definition add_column (a : ndarray float) (center : vec3)
  : result (ndarray float) :=
  match a with
  | Arr2 n [xs; ys; zs] =>
      Ok (Arr2 n [map (fun x => (x + c0 center)%float) xs;
                  map (fun y => (y + c1 center)%float) ys;
                  map (fun z => (z + c2 center)%float) zs])
  | _ => Raise ValueError
  end.

Definition zeros (n : nat) : list float := repeat 0%float n.

Fixpoint put_mask (xs : list float) (mask : list bool) (vals : list float)
  : list float :=
  match xs, mask with
  | x :: xs', true :: mask' =>
      match vals with
      | v :: vals' => v :: put_mask xs' mask' vals'
      | [] => x :: put_mask xs' mask' []
      end
  | x :: xs', false :: mask' => x :: put_mask xs' mask' vals
  | _, _ => xs
  end.

(** [xs[mask] = vals], with the two behaviours of NumPy as above. *)
Definition setitem_mask (strict_assignment : bool) (xs : list float)
  (mask : list bool) (vals : list float) : result (list float) :=
  if negb (length mask =? length xs)%nat then Raise IndexError
  else if strict_assignment then
    if (length vals =? count_true mask)%nat then Ok (put_mask xs mask vals)
    else
      match vals with
      | [v] => Ok (put_mask xs mask (repeat v (count_true mask)))
      | _ => Raise ValueError
      end
  else Ok (put_mask xs mask vals).

(** [radius**2] on a Python float: [OverflowError] when the square of a
    finite number is out of range; an underflow gives zero silently. *)
Definition square (radius : float) : result float :=
  let r2 := (radius * radius)%float in
  if is_infinity r2 && is_finite radius then Raise OverflowError else Ok r2.

(** [xs**2 + ys**2 > r2], entry by entry. *)
Fixpoint outside (xs ys : list float) (r2 : float) : list bool :=
  match xs, ys with
  | x :: xs', y :: ys' => (r2 <? x * x + y * y)%float :: outside xs' ys' r2
  | _, _ => []
  end.

(** [while not_inside.any(): ...] *)
Fixpoint rejection_loop (strict_assignment : bool) (rng : nat -> float)
  (fuel : nat) (radius : float) (not_inside : list bool)
  (xs ys : list float) (pos : nat)
  : option (result (list float * list float) * nat) :=
  if any not_inside then
    match fuel with
    | O => None
    | S fuel' =>
        let '(vx, pos) :=
          uniform rng (- radius)%float radius (length not_inside) pos in
        match setitem_mask strict_assignment xs not_inside vx with
        | Raise e => Some (Raise e, pos)
        | Ok xs =>
            let '(vy, pos) :=
              uniform rng (- radius)%float radius (length not_inside) pos in
            match setitem_mask strict_assignment ys not_inside vy with
            | Raise e => Some (Raise e, pos)
            | Ok ys =>
                match square radius with
                | Raise e => Some (Raise e, pos)
                | Ok r2 =>
                    rejection_loop strict_assignment rng fuel' radius
                      (outside xs ys r2) xs ys pos
                end
            end
        end
    end
  else Some (Ok (xs, ys), pos).




End Float64.



(** ** Sample bundles *)

(** One ray from (1,2,3) along the z axis, and two rays along the x and y
    axes. *)
Definition bundle_one : RayBundle R :=
  {| _vertices := Some (Arr2 1%nat [[1]; [2]; [3]]);
     _direct := Some (Arr2 1%nat [[0]; [0]; [1]]);
     _energy := Some (Arr1 [5]) |}.

Definition bundle_two : RayBundle R :=
  {| _vertices := Some (Arr2 2%nat [[4; 7]; [5; 8]; [6; 9]]);
     _direct := Some (Arr2 2%nat [[1; 0]; [0; 1]; [0; 0]]);
     _energy := Some (Arr1 [10; 20]) |}.

(** [bundle_two] after [set_vertices] was called on it again, with a single
    vertex: the anchor call takes any array and the other fields stay. *)
Definition bundle_resized : RayBundle R :=
  snd (set_vertices (Arr2 1%nat [[1]; [2]; [3]]) bundle_two).

(** ** A sample run of the generator *)

(** Every variate is one half, so every point drawn is the centre of the
    square; the rotation is the axis-angle matrix, the assignment is the
    strict one and fresh storage holds zeros. *)
Definition sample_rng : nat -> R := fun _ => 1 / 2.

Definition sample_run (fuel num_rays : nat) (center direction : vec3)
  (radius ang_range : R) : option (result (RayBundle R) * nat) :=
  solar_disk_bundle axis_angle_rotation true (fun _ _ => 0) (fun _ => 0)
    (fun _ => 0) sample_rng fuel num_rays center direction radius ang_range 0.

(** Variates for a run of two rays whose first batch is split: the point of
    ray 0 is the centre of the square, the point of ray 1 its corner
    [(-radius, -radius)]. *)
Definition split_rng : nat -> R :=
  fun k => match k with 5%nat | 7%nat => 0 | _ => 1 / 2 end.

(** * Properties *)

(** ** Arrays *)

Local Open Scope nat_scope.

Module NumPyFacts.

Section Facts.
Variable T : Type.

Lemma shape_ne_same (s : list nat) : shape_ne s s = false.
Proof.
  unfold shape_ne. destruct (list_eq_dec Nat.eq_dec s s); congruence.
Qed.

Lemma shape_ne_diff (s t : list nat) : s <> t -> shape_ne s t = true.
Proof.
  intros Hne. unfold shape_ne.
  destruct (list_eq_dec Nat.eq_dec s t); [contradiction | reflexivity].
Qed.

Lemma shape_rank2 (a : ndarray T) (r c : nat) :
  shape a = [r; c] -> exists rows, a = Arr2 c rows /\ length rows = r.
Proof.
  destruct a as [data | ncols rows]; simpl; intros H; inversion H; subst.
  now exists rows.
Qed.

Lemma shape_rank1 (a : ndarray T) (n : nat) :
  shape a = [n] -> exists data, a = Arr1 data /\ length data = n.
Proof.
  destruct a as [data | ncols rows]; simpl; intros H; inversion H; subst.
  now exists data.
Qed.

Lemma three_rows (rows : list (list T)) :
  length rows = 3 -> exists r0 r1 r2, rows = [r0; r1; r2].
Proof.
  destruct rows as [| r0 [| r1 [| r2 [| r3 rest]]]]; simpl; try discriminate.
  intros _. now exists r0, r1, r2.
Qed.

Lemma zip_app_length (ra rb : list (list T)) :
  length ra = length rb -> length (zip_app ra rb) = length ra.
Proof.
  revert rb. induction ra as [| a ra IH]; intros [| b rb]; simpl; try discriminate.
  - reflexivity.
  - intros H. f_equal. apply IH. now inversion H.
Qed.

Lemma zip_app_rectangular (ra rb : list (list T)) (ca cb : nat) :
  Forall (fun r => length r = ca) ra ->
  Forall (fun r => length r = cb) rb ->
  Forall (fun r => length r = ca + cb) (zip_app ra rb).
Proof.
  intros Ha. revert rb. induction Ha as [| a ra Hlen Ha IH]; intros rb Hb.
  - constructor.
  - destruct Hb as [| b rb Hlb Hb]; simpl; constructor.
    + rewrite length_app. now rewrite Hlen, Hlb.
    + now apply IH.
Qed.

(** The columns left of the seam are those of the first array. *)
Lemma column_of_zip_app_left (ra rb : list (list T)) (ca i : nat) :
  Forall (fun r => length r = ca) ra ->
  length ra = length rb ->
  i < ca ->
  column_of (zip_app ra rb) i = column_of ra i.
Proof.
  intros Ha. revert rb.
  induction Ha as [| a ra Hlen Ha IH]; intros [| b rb] Hl Hi; simpl in *;
    try discriminate; try reflexivity.
  rewrite nth_error_app1 by lia.
  rewrite (IH rb) by (auto; lia). reflexivity.
Qed.

(** The columns right of the seam are those of the second array, shifted. *)
Lemma column_of_zip_app_right (ra rb : list (list T)) (ca i : nat) :
  Forall (fun r => length r = ca) ra ->
  length ra = length rb ->
  ca <= i ->
  column_of (zip_app ra rb) i = column_of rb (i - ca).
Proof.
  intros Ha. revert rb.
  induction Ha as [| a ra Hlen Ha IH]; intros [| b rb] Hl Hi; simpl in *;
    try discriminate; try reflexivity.
  rewrite nth_error_app2 by lia. rewrite Hlen.
  rewrite (IH rb) by (auto; lia). reflexivity.
Qed.

(** A rectangular array has every column its width allows. *)
Lemma column_of_defined (rows : list (list T)) (c i : nat) :
  Forall (fun r => length r = c) rows -> i < c -> column_of rows i <> None.
Proof.
  intros Hr Hi. induction Hr as [| r rows Hlen Hr IH]; simpl; [discriminate |].
  destruct (nth_error r i) eqn:E.
  - destruct (column_of rows i); [discriminate | contradiction].
  - apply nth_error_None in E. lia.
Qed.

End Facts.

End NumPyFacts.

Import NumPyFacts.

(** ** The container class *)

Section RayBundleFacts.
Variable T : Type.

(** The merge of two bundles whose arrays have three rows each, written
    out: every setter of the new bundle accepts what [hstack] hands it as
    soon as the two direction arrays and the two energy arrays together are
    as wide as the two vertex arrays together. *)
Lemma add_three_rows (a b : RayBundle T)
  (na nb nda ndb : nat) (va vb da db : list (list T)) (ea eb : list T) :
  _vertices a = Some (Arr2 na va) -> _direct a = Some (Arr2 nda da) ->
  _energy a = Some (Arr1 ea) ->
  _vertices b = Some (Arr2 nb vb) -> _direct b = Some (Arr2 ndb db) ->
  _energy b = Some (Arr1 eb) ->
  length va = length vb -> length da = 3 -> length db = 3 ->
  nda + ndb = na + nb -> length ea + length eb = na + nb ->
  __add__ a b =
  Ok {| _vertices := Some (Arr2 (na + nb) (zip_app va vb));
        _direct := Some (Arr2 (nda + ndb) (zip_app da db));
        _energy := Some (Arr1 (ea ++ eb)) |}.
Proof.
  intros Hva Hda Hea Hvb Hdb Heb Hlv Hlda Hldb Hnd Hne.
  unfold __add__, eval, exec, get_vertices, get_directions, get_energy, getattr.
  rewrite Hva, Hvb, Hda, Hdb, Hea, Heb. simpl.
  rewrite Hlv, Nat.eqb_refl. simpl.
  rewrite Hlda, Hldb. simpl.
  unfold set_directions, set_energy, get_num_rays, mbind, getattr, lift, raise.
  simpl.
  rewrite zip_app_length by congruence. rewrite Hlda, Hnd.
  rewrite shape_ne_same. simpl.
  rewrite length_app, Hne, shape_ne_same. rewrite <- Hnd. reflexivity.
Qed.

Lemma empty_bund_value (self : RayBundle T) :
  empty_bund self =
  Ok {| _vertices := Some array_3x0;
        _direct := Some array_3x0;
        _energy := Some array_0 |}.
Proof. reflexivity. Qed.

Lemma consistent_arrays (b : RayBundle T) (n : nat) :
  consistent b n ->
  exists v0 v1 v2 d0 d1 d2 e,
    _vertices b = Some (Arr2 n [v0; v1; v2]) /\
    _direct b = Some (Arr2 n [d0; d1; d2]) /\
    _energy b = Some (Arr1 e) /\
    Forall (fun r => length r = n) [v0; v1; v2] /\
    Forall (fun r => length r = n) [d0; d1; d2] /\
    length e = n.
Proof.
  intros (v & d & e & Hv & Hd & He & Rv & Rd & Sv & Sd & Se).
  apply shape_rank2 in Sv as (rv & -> & Lv).
  apply shape_rank2 in Sd as (rd & -> & Ld).
  apply shape_rank1 in Se as (le & -> & Le).
  apply three_rows in Lv as (v0 & v1 & v2 & ->).
  apply three_rows in Ld as (d0 & d1 & d2 & ->).
  exists v0, v1, v2, d0, d1, d2, le. simpl in Rv, Rd. auto 10.
Qed.

End RayBundleFacts.

(** ** Claims about the container class *)

(** C1. For two bundles [a] and [b] that each have vertices, directions and
    energy set and consistent (3-by-n, 3-by-n, n), [a + b] returns a bundle
    with [na + nb] rays; ray [i] of the result is ray [i] of [a] for
    [i < na] and ray [i - na] of [b] for [na <= i < na + nb], in each of the
    three fields, and those rays exist. *)
Theorem add_concatenates (T : Type) (a b : RayBundle T) (na nb : nat) :
  consistent a na -> consistent b nb ->
  exists c,
    __add__ a b = Ok c /\
    eval (@get_num_rays T) c = Ok (na + nb) /\
    consistent c (na + nb) /\
    (forall i, i < na ->
       vertex c i = vertex a i /\ direction c i = direction a i /\
       energy c i = energy a i /\
       vertex a i <> None /\ direction a i <> None /\ energy a i <> None) /\
    (forall i, na <= i < na + nb ->
       vertex c i = vertex b (i - na) /\ direction c i = direction b (i - na) /\
       energy c i = energy b (i - na) /\
       vertex b (i - na) <> None /\ direction b (i - na) <> None /\
       energy b (i - na) <> None).
Proof.
  intros Ca Cb.
  apply consistent_arrays in Ca
    as (v0 & v1 & v2 & d0 & d1 & d2 & ea & Hva & Hda & Hea & Rva & Rda & Lea).
  apply consistent_arrays in Cb
    as (w0 & w1 & w2 & f0 & f1 & f2 & eb & Hvb & Hdb & Heb & Rvb & Rdb & Leb).
  eexists. split.
  { apply (add_three_rows a b Hva Hda Hea Hvb Hdb Heb); simpl; lia. }
  split; [reflexivity |]. split.
  { eexists _, _, _. repeat split; simpl; try reflexivity.
    - apply (zip_app_rectangular Rva Rvb).
    - apply (zip_app_rectangular Rda Rdb).
    - rewrite length_app. now rewrite Lea, Leb. }
  unfold vertex, direction, energy, eval, get_vertices, get_directions,
    get_energy, getattr, field_of.
  rewrite Hva, Hda, Hea, Hvb, Hdb, Heb. cbn [fst _vertices _direct _energy].
  cbn [column item]. split; intros i Hi.
  - replace (i <? na + nb) with true by (symmetry; apply Nat.ltb_lt; lia).
    replace (i <? na) with true by (symmetry; apply Nat.ltb_lt; lia).
    rewrite (column_of_zip_app_left _ Rva) by (simpl; lia).
    rewrite (column_of_zip_app_left _ Rda) by (simpl; lia).
    rewrite nth_error_app1 by lia.
    repeat split.
    + now apply (column_of_defined Rva).
    + now apply (column_of_defined Rda).
    + apply nth_error_Some. lia.
  - replace (i <? na + nb) with true by (symmetry; apply Nat.ltb_lt; lia).
    replace (i - na <? nb) with true by (symmetry; apply Nat.ltb_lt; lia).
    rewrite (column_of_zip_app_right _ Rva) by (simpl; lia).
    rewrite (column_of_zip_app_right _ Rda) by (simpl; lia).
    rewrite nth_error_app2 by lia. rewrite Lea.
    repeat split.
    + apply (column_of_defined Rvb). lia.
    + apply (column_of_defined Rdb). lia.
    + apply nth_error_Some. lia.
Qed.

Lemma bundle_one_consistent : consistent bundle_one 1.
Proof.
  eexists _, _, _. repeat split; simpl; repeat constructor.
Qed.

Lemma bundle_two_consistent : consistent bundle_two 2.
Proof.
  eexists _, _, _. repeat split; simpl; repeat constructor.
Qed.

Lemma add_concatenates_witness :
  consistent bundle_one 1 /\ consistent bundle_two 2 /\
  exists c,
    __add__ bundle_one bundle_two = Ok c /\
    eval (@get_num_rays R) c = Ok 3 /\
    vertex c 0 = vertex bundle_one 0 /\
    vertex c 2 = vertex bundle_two 1.
Proof.
  split; [exact bundle_one_consistent |].
  split; [exact bundle_two_consistent |].
  destruct (add_concatenates bundle_one_consistent bundle_two_consistent)
    as (c & Hc & Hn & _ & Hleft & Hright).
  exists c. split; [exact Hc |]. split; [exact Hn |]. split.
  - apply (Hleft 0). lia.
  - apply (Hright 2). lia.
Defined.

(** C2, as amended. For every bundle [a] whose three arrays are set and
    consistent (3-by-n, 3-by-n, n), the empty bundle is built without
    failure, whatever bundle [empty_bund] is called on, and the empty bundle
    plus [a] is a bundle with the very arrays of [a]. *)
Theorem empty_is_left_identity (T : Type) (a : RayBundle T) (n : nat) :
  consistent a n ->
  exists e,
    (forall self, empty_bund self = Ok e) /\
    eval (@get_num_rays T) e = Ok 0 /\
    __add__ e a = Ok a.
Proof.
  intros Ca.
  apply consistent_arrays in Ca
    as (v0 & v1 & v2 & d0 & d1 & d2 & ea & Hva & Hda & Hea & Rva & Rda & Lea).
  eexists. split; [intros self; apply empty_bund_value |].
  split; [reflexivity |].
  rewrite (@add_three_rows T _ a 0 n 0 n [[]; []; []] [v0; v1; v2]
             [[]; []; []] [d0; d1; d2] [] ea); simpl; auto.
  destruct a as [va da ea']. simpl in *. now subst.
Qed.

Lemma empty_is_left_identity_witness :
  consistent bundle_two 2 /\
  exists e, empty_bund bundle_one = Ok e /\ __add__ e bundle_two = Ok bundle_two.
Proof.
  split; [exact bundle_two_consistent |].
  destruct (empty_is_left_identity bundle_two_consistent) as (e & He & _ & Hadd).
  exists e. split; [apply He | exact Hadd].
Defined.

(** C2 as it was stated fails: [bundle_resized] has its three arrays set
    (one vertex, two directions, two energies), and the empty bundle plus
    this bundle raises [ValueError] in [set_directions]. *)
Lemma empty_plus_resized_raises :
  populated bundle_resized /\
  (e <- empty_bund bundle_resized ;; __add__ e bundle_resized)%result
  = Raise ValueError.
Proof.
  split.
  - eexists _, _, _, _, _, _. repeat split; simpl; repeat constructor.
  - reflexivity.
Qed.

(** C3. On a bundle whose vertices have [n] columns, [set_directions] with
    an array whose shape is not [(3, n)] and [set_energy] with an array whose
    shape is not [(n,)] raise [DimensionMismatch] and leave the bundle as it
    was; with the matching shape they return, and the getter then hands back
    the very array that was stored. *)
Theorem setters_check_ray_count (T : Type) (b : RayBundle T)
  (v : ndarray T) (r n : nat) :
  _vertices b = Some v -> shape v = [r; n] ->
  (forall d, shape d <> [3; n] ->
     set_directions d b = (Raise DimensionMismatch, b)) /\
  (forall e, shape e <> [n] ->
     set_energy e b = (Raise DimensionMismatch, b)) /\
  (forall d, shape d = [3; n] ->
     exists b', set_directions d b = (Ok tt, b') /\
                eval (@get_directions T) b' = Ok d) /\
  (forall e, shape e = [n] ->
     exists b', set_energy e b = (Ok tt, b') /\
                eval (@get_energy T) b' = Ok e).
Proof.
  intros Hv Hs.
  unfold set_directions, set_energy, get_num_rays, mbind, getattr, lift, raise.
  rewrite Hv, Hs. simpl.
  repeat split.
  - intros d Hd. now rewrite (shape_ne_diff Hd).
  - intros e He. now rewrite (shape_ne_diff He).
  - intros d Hd. rewrite Hd, shape_ne_same. eexists. split; reflexivity.
  - intros e He. rewrite He, shape_ne_same. eexists. split; reflexivity.
Qed.

Lemma setters_check_ray_count_witness :
  set_directions (Arr2 1 [[0%R]; [0%R]; [1%R]]) bundle_two
    = (Raise DimensionMismatch, bundle_two) /\
  set_energy (Arr1 [1%R]) bundle_two = (Raise DimensionMismatch, bundle_two) /\
  (exists b', set_energy (Arr1 [1%R; 2%R]) bundle_two = (Ok tt, b') /\
              eval (@get_energy R) b' = Ok (Arr1 [1%R; 2%R])).
Proof.
  destruct (@setters_check_ray_count R bundle_two
              (Arr2 2 [[4; 7]; [5; 8]; [6; 9]]%R) 3 2 eq_refl eq_refl)
    as (Hd & He & _ & Hok).
  split; [apply Hd; discriminate |].
  split; [apply He; discriminate |].
  apply Hok. reflexivity.
Defined.

(** C10. On a bundle that was just constructed, [set_directions] and
    [set_energy] raise with any array (the ray count cannot be read: the
    vertices attribute is missing), the bundle is left as it was, and on the
    bundle the failed call leaves [get_directions] and [get_energy] still
    raise. *)
Theorem setters_before_vertices (T : Type) (d e : ndarray T) :
  let fresh : RayBundle T := RayBundle_new in
  set_directions d fresh = (Raise UninitializedField, fresh) /\
  set_energy e fresh = (Raise UninitializedField, fresh) /\
  eval (@get_directions T) (snd (set_directions d fresh))
    = Raise UninitializedField /\
  eval (@get_energy T) (snd (set_directions d fresh))
    = Raise UninitializedField /\
  eval (@get_directions T) (snd (set_energy e fresh))
    = Raise UninitializedField /\
  eval (@get_energy T) (snd (set_energy e fresh))
    = Raise UninitializedField.
Proof.
  repeat split; reflexivity.
Qed.

(** ** Vectors *)

Unset Implicit Arguments.

Local Open Scope R_scope.

Module Geometry.

Lemma Reqb_true (x y : R) : Reqb x y = true <-> x = y.
Proof.
  unfold Reqb. destruct (Req_dec_T x y); split; intros; congruence.
Qed.

Lemma Rgtb_false (x y : R) : Rgtb x y = false <-> x <= y.
Proof.
  unfold Rgtb. destruct (Rgt_dec x y); split; intros; try lra; congruence.
Qed.

Lemma all_zero_spec (v : vec3) :
  all_zero v = true <-> c0 v = 0 /\ c1 v = 0 /\ c2 v = 0.
Proof.
  unfold all_zero. rewrite !andb_true_iff, !Reqb_true. tauto.
Qed.

(** The two cases of the reference axis. *)
Lemma perp_axis_cases (d : vec3) :
  (c0 d = 0 /\ c1 d = 0 /\ perp_axis d = Vec3 1 0 0) \/
  ((c0 d <> 0 \/ c1 d <> 0) /\ perp_axis d = Vec3 (c1 d) (- c0 d) 0).
Proof.
  unfold perp_axis.
  destruct (all_zero (Vec3 (c1 d) (- c0 d) 0)) eqn:E.
  - apply all_zero_spec in E. simpl in E. left. repeat split; lra.
  - right. split; [| reflexivity].
    destruct (Req_dec_T (c0 d) 0) as [H0 | H0]; [| now left].
    destruct (Req_dec_T (c1 d) 0) as [H1 | H1]; [| now right].
    exfalso. assert (all_zero (Vec3 (c1 d) (- c0 d) 0) = true).
    { apply all_zero_spec. simpl. repeat split; lra. }
    congruence.
Qed.

(** The reference axis is never the zero vector. *)
Lemma perp_axis_nonzero (d : vec3) : perp_axis d <> Vec3 0 0 0.
Proof.
  destruct (perp_axis_cases d) as [(_ & _ & ->) | ([H | H] & ->)];
    intros E; inversion E; lra.
Qed.

Lemma vec3_eq (a b : vec3) :
  c0 a = c0 b -> c1 a = c1 b -> c2 a = c2 b -> a = b.
Proof.
  destruct a, b; simpl; intros; subst; reflexivity.
Qed.



Lemma dot_zero (m : mat3) : dot m (Vec3 0 0 0) = Vec3 0 0 0.
Proof. apply vec3_eq; simpl; unfold inner; simpl; ring. Qed.









(** The axis-angle matrix is a rotation primitive in the sense above. *)
Lemma axis_angle_is_rotation : is_rotation axis_angle_rotation.
Proof.
  split.
  - intros axis v _. unfold axis_angle_rotation. rewrite sin_0, cos_0.
    apply vec3_eq; cbv [dot inner row0 row1 row2 c0 c1 c2]; ring.
  - intros [x y z] angle Hu.
    assert (Hu' : x * x + y * y + z * z = 1) by exact Hu.
    unfold axis_angle_rotation.
    apply vec3_eq; cbv [dot inner row0 row1 row2 c0 c1 c2].
    + transitivity (x * (x * x + y * y + z * z) * (1 - cos angle)
                    + x * cos angle); [ring | rewrite Hu'; ring].
    + transitivity (y * (x * x + y * y + z * z) * (1 - cos angle)
                    + y * cos angle); [ring | rewrite Hu'; ring].
    + transitivity (z * (x * x + y * y + z * z) * (1 - cos angle)
                    + z * cos angle); [ring | rewrite Hu'; ring].
Qed.

End Geometry.

Import Geometry.

(** ** Lists of samples *)

Local Open Scope nat_scope.

Module Samples.

Lemma set_nth_length (l : list R) (i : nat) (x : R) :
  length (set_nth l i x) = length l.
Proof.
  revert i. induction l as [| y l IH]; intros [| i]; simpl; auto.
Qed.

Lemma set_nth_same (l : list R) (i : nat) (x : R) :
  i < length l -> nth_error (set_nth l i x) i = Some x.
Proof.
  revert i. induction l as [| y l IH]; intros [| i]; simpl; intros H;
    try lia; [reflexivity | apply IH; lia].
Qed.

Lemma set_nth_other (l : list R) (i j : nat) (x : R) :
  i <> j -> nth_error (set_nth l i x) j = nth_error l j.
Proof.
  revert i j. induction l as [| y l IH]; intros [| i] [| j] H; simpl;
    try reflexivity; try lia.
  apply IH. lia.
Qed.

Lemma put_mask_length (xs : list R) (mask : list bool) (vals : list R) :
  length (put_mask xs mask vals) = length xs.
Proof.
  revert mask vals.
  induction xs as [| x xs IH]; intros [| [|] mask] vals; simpl; auto.
  destruct vals; simpl; auto.
Qed.

(** With every entry selected, the values replace the array. *)
Lemma put_mask_ones (xs vals : list R) :
  length xs = length vals -> put_mask xs (ones (length xs)) vals = vals.
Proof.
  revert vals. induction xs as [| x xs IH]; intros [| v vals]; simpl;
    try discriminate; try reflexivity.
  intros H. f_equal. apply IH. lia.
Qed.

Lemma count_true_ones (n : nat) : count_true (ones n) = n.
Proof.
  unfold count_true, ones. induction n; simpl; auto.
Qed.

Lemma ones_length (n : nat) : length (ones n) = n.
Proof. apply repeat_length. Qed.

Lemma any_ones_false (n : nat) : any (ones n) = false -> n = 0.
Proof. destruct n; simpl; [reflexivity | discriminate]. Qed.

Lemma lincomb_nth (r : vec3) (xs ys zs : list R) (i : nat) (x y z : R) :
  nth_error xs i = Some x -> nth_error ys i = Some y ->
  nth_error zs i = Some z ->
  nth_error (lincomb r xs ys zs) i = Some (c0 r * x + c1 r * y + c2 r * z)%R.
Proof.
  revert ys zs i.
  induction xs as [| x' xs IH]; intros [| y' ys] [| z' zs] [| i]; simpl;
    try discriminate.
  - intros. congruence.
  - apply IH.
Qed.

(** When the test [xs**2 + ys**2 > r2] holds nowhere, every point is in
    the disk; and the other way round. *)
Lemma outside_nowhere (xs ys : list R) (r2 : R) :
  any (outside xs ys r2) = false ->
  forall i x y, nth_error xs i = Some x -> nth_error ys i = Some y ->
    (x ^ 2 + y ^ 2 <= r2)%R.
Proof.
  revert ys. induction xs as [| x' xs IH]; intros [| y' ys]; simpl;
    intros H [| i] x y Hx Hy; try discriminate.
  - apply orb_false_iff in H as [H _]. apply Rgtb_false in H.
    inversion Hx; inversion Hy; subst. exact H.
  - apply orb_false_iff in H as [_ H]. exact (IH ys H i x y Hx Hy).
Qed.

Lemma nowhere_outside (xs ys : list R) (r2 : R) :
  length xs = length ys ->
  (forall i x y, nth_error xs i = Some x -> nth_error ys i = Some y ->
     (x ^ 2 + y ^ 2 <= r2)%R) ->
  any (outside xs ys r2) = false.
Proof.
  revert ys. induction xs as [| x' xs IH]; intros [| y' ys]; simpl;
    intros Hl H; try discriminate; try reflexivity.
  apply orb_false_iff. split.
  - apply Rgtb_false. exact (H 0 x' y' eq_refl eq_refl).
  - apply IH; [lia |]. intros i x y Hx Hy. exact (H (S i) x y Hx Hy).
Qed.

Lemma zeros_nth (n i : nat) : i < n -> nth_error (zeros n) i = Some 0%R.
Proof. intros H. unfold zeros. now apply nth_error_repeat. Qed.

Lemma seq_nth_error (n i : nat) : i < n -> nth_error (seq 0 n) i = Some i.
Proof.
  intros H. rewrite nth_error_seq.
  apply Nat.ltb_lt in H. now rewrite H.
Qed.

End Samples.

Import Samples.

(** ** The loops of the generator *)

Section SolarDiskFacts.

Variable rotation : vec3 -> R -> mat3.
Variable strict : bool.
Variable uninit_directions : nat -> nat -> R.
Variable uninit_xs uninit_ys : nat -> R.
Variable rng : nat -> R.

Lemma uniform_length (low high : R) (size pos : nat) :
  length (fst (uniform rng low high size pos)) = size.
Proof. unfold uniform. simpl. now rewrite length_map, length_seq. Qed.

Lemma uniform_eta (low high : R) (size pos : nat) :
  uniform rng low high size pos
  = (fst (uniform rng low high size pos), pos + size).
Proof. reflexivity. Qed.

Lemma uniform_nth (low high : R) (size pos i : nat) :
  i < size ->
  nth_error (fst (uniform rng low high size pos)) i
  = Some (low + (high - low) * rng (pos + i))%R.
Proof.
  intros H. unfold uniform. simpl.
  now rewrite nth_error_map, (seq_nth_error size i H).
Qed.

Lemma setitem_mask_length (xs : list R) (mask : list bool) (vals xs' : list R) :
  setitem_mask strict xs mask vals = Ok xs' -> length xs' = length xs.
Proof.
  unfold setitem_mask.
  destruct (negb (length mask =? length xs)); [discriminate |].
  destruct strict.
  - destruct (length vals =? count_true mask).
    + intros H. inversion H. apply put_mask_length.
    + destruct vals as [| v [| w vals]]; try discriminate.
      intros H. inversion H. apply put_mask_length.
  - intros H. inversion H. apply put_mask_length.
Qed.

(** The first round: every entry is selected and the batch has one value
    per ray, so the batch is stored as it is, under either behaviour of the
    assignment. *)
Lemma setitem_mask_ones (xs vals : list R) (n : nat) :
  length xs = n -> length vals = n ->
  setitem_mask strict xs (ones n) vals = Ok vals.
Proof.
  intros Hx Hv. subst n. unfold setitem_mask.
  rewrite ones_length, Nat.eqb_refl. simpl.
  rewrite count_true_ones, Hv, Nat.eqb_refl.
  rewrite put_mask_ones by congruence.
  now destruct strict.
Qed.

(** The loop is over as soon as no entry is selected, with any fuel. *)
Lemma rejection_loop_done (fuel : nat) (radius : R) (mask : list bool)
  (xs ys : list R) (pos : nat) :
  any mask = false ->
  rejection_loop strict rng fuel radius mask xs ys pos = Some (Ok (xs, ys), pos).
Proof.
  intros H. destruct fuel; simpl; now rewrite H.
Qed.

(** One round is enough when the first batch falls in the disk. *)
Lemma rejection_loop_first_batch (fuel : nat) (radius : R) (n : nat)
  (xs ys : list R) (pos : nat) :
  length xs = n -> length ys = n ->
  (forall i, i < n ->
     (square_draw rng radius (pos + i) ^ 2
      + square_draw rng radius (pos + n + i) ^ 2 <= radius ^ 2)%R) ->
  rejection_loop strict rng (S fuel) radius (ones n) xs ys pos
  = Some (Ok (fst (uniform rng (- radius) radius n pos),
              fst (uniform rng (- radius) radius n (pos + n))),
          pos + n + n).
Proof.
  intros Hx Hy Hin.
  destruct n as [| n].
  - destruct xs; [| discriminate]. destruct ys; [| discriminate].
    simpl. now rewrite !Nat.add_0_r.
  - remember (S n) as m eqn:Em.
    assert (Hany : any (ones m) = true) by (subst m; reflexivity).
    cbn [rejection_loop]. rewrite Hany, ones_length.
    rewrite (uniform_eta (- radius) radius m pos) at 1. cbv beta iota.
    rewrite (setitem_mask_ones xs _ m Hx (uniform_length _ _ m pos)).
    rewrite (uniform_eta (- radius) radius m (pos + m)) at 1. cbv beta iota.
    rewrite (setitem_mask_ones ys _ m Hy (uniform_length _ _ m (pos + m))).
    apply rejection_loop_done.
    apply nowhere_outside.
    + now rewrite !uniform_length.
    + intros i x y Hxi Hyi.
      assert (Hi : i < m).
      { rewrite <- (uniform_length (- radius) radius m pos).
        apply nth_error_Some. congruence. }
      rewrite (uniform_nth _ _ _ _ _ Hi) in Hxi.
      rewrite (uniform_nth _ _ _ _ _ Hi) in Hyi.
      inversion Hxi; inversion Hyi; subst x y. exact (Hin i Hi).
Qed.

(** Whenever the loop returns, the arrays kept their lengths and every point
    lies in the disk. The invariant: if no entry is selected, every point is
    in the disk already. *)
Lemma rejection_loop_inside (fuel : nat) (radius : R) :
  forall (mask : list bool) (xs ys : list R) (pos : nat)
         (xs' ys' : list R) (pos' : nat),
  rejection_loop strict rng fuel radius mask xs ys pos
  = Some (Ok (xs', ys'), pos') ->
  (any mask = false ->
   forall i x y, nth_error xs i = Some x -> nth_error ys i = Some y ->
     (x ^ 2 + y ^ 2 <= radius ^ 2)%R) ->
  length xs' = length xs /\ length ys' = length ys /\
  forall i x y, nth_error xs' i = Some x -> nth_error ys' i = Some y ->
    (x ^ 2 + y ^ 2 <= radius ^ 2)%R.
Proof.
  induction fuel as [| fuel IH]; intros mask xs ys pos xs' ys' pos' Hrun Hinv;
    cbn [rejection_loop] in Hrun; destruct (any mask) eqn:Hany;
    try discriminate.
  - inversion Hrun; subst. repeat split; try reflexivity. exact (Hinv eq_refl).
  - rewrite (uniform_eta (- radius) radius (length mask) pos) in Hrun.
    cbv beta iota in Hrun.
    destruct (setitem_mask strict xs mask _) as [xs1 |] eqn:Hsx;
      [| discriminate].
    rewrite (uniform_eta (- radius) radius (length mask) (pos + length mask))
      in Hrun.
    cbv beta iota in Hrun.
    destruct (setitem_mask strict ys mask _) as [ys1 |] eqn:Hsy;
      [| discriminate].
    apply IH in Hrun.
    + destruct Hrun as (Lx & Ly & Hin).
      apply setitem_mask_length in Hsx. apply setitem_mask_length in Hsy.
      repeat split; try congruence. exact Hin.
    + apply outside_nowhere.
  - inversion Hrun; subst. repeat split; try reflexivity. exact (Hinv eq_refl).
Qed.

(** The loop over the rays writes column [j] for every ray [j] it visits
    and leaves the other columns alone. *)
Lemma direction_loop_columns (perp d : vec3) (theta phi : list R) (n : nat) :
  length theta = n -> length phi = n ->
  forall (rays : list nat) (xs ys zs : list R),
  Forall (fun ray => ray < n) rays ->
  length xs = n -> length ys = n -> length zs = n ->
  exists xs' ys' zs',
    direction_loop rotation perp d theta phi rays (Arr2 n [xs; ys; zs])
    = Ok (Arr2 n [xs'; ys'; zs']) /\
    length xs' = n /\ length ys' = n /\ length zs' = n /\
    forall j t p, nth_error theta j = Some t -> nth_error phi j = Some p ->
      (In j rays ->
       column (Arr2 n [xs'; ys'; zs']) j
       = Some (vec_list (dot (rotation d p) (dot (rotation perp t) d)))) /\
      (~ In j rays ->
       nth_error xs' j = nth_error xs j /\ nth_error ys' j = nth_error ys j /\
       nth_error zs' j = nth_error zs j).
Proof.
  intros Lt Lp rays.
  induction rays as [| ray rays IH]; intros xs ys zs Hr Lx Ly Lz.
  - exists xs, ys, zs. repeat split; auto. intros [].
  - inversion Hr as [| ? ? Hray Hrays]; subst.
    cbn [direction_loop]. unfold getitem.
    destruct (nth_error theta ray) as [t0 |] eqn:Et;
      [| apply nth_error_None in Et; lia].
    destruct (nth_error phi ray) as [p0 |] eqn:Ep;
      [| apply nth_error_None in Ep; lia].
    cbn [bind setitem_column].
    replace (ray <? length theta) with true by (symmetry; now apply Nat.ltb_lt).
    cbn [bind].
    set (dir := dot (rotation d p0) (dot (rotation perp t0) d)).
    destruct (IH (set_nth xs ray (c0 dir)) (set_nth ys ray (c1 dir))
                 (set_nth zs ray (c2 dir)) Hrays)
      as (xs' & ys' & zs' & Hloop & Lx' & Ly' & Lz' & Hcols);
      try (rewrite set_nth_length; assumption).
    exists xs', ys', zs'.
    split; [exact Hloop |]. split; [exact Lx' |].
    split; [exact Ly' |]. split; [exact Lz' |].
    intros j t p Ht Hp. split.
    + intros Hin.
      destruct (In_dec Nat.eq_dec j rays) as [Hj | Hj].
      * now apply (Hcols j t p).
      * destruct Hin as [-> | Hin]; [| contradiction].
        destruct (Hcols j t p Ht Hp) as [_ Hkeep].
        destruct (Hkeep Hj) as (Kx & Ky & Kz).
        assert (t = t0) by congruence. assert (p = p0) by congruence. subst t p.
        cbn [column column_of].
        replace (j <? length theta) with true
          by (symmetry; now apply Nat.ltb_lt).
        rewrite Kx, Ky, Kz.
        rewrite !set_nth_same by lia. reflexivity.
    + intros Hnot.
      assert (Hj : ~ In j rays) by (intros Hc; apply Hnot; now right).
      assert (Hne : ray <> j) by (intros ->; apply Hnot; now left).
      destruct (Hcols j t p Ht Hp) as [_ Hkeep].
      destruct (Hkeep Hj) as (Kx & Ky & Kz).
      rewrite Kx, Ky, Kz, !set_nth_other by assumption. auto.
Qed.

(** The generator, once the loop over the rays is resolved: the directions
    array has the tilted and spun direction of ray [j] in column [j], and
    the call ends as the rejection loop does. *)
Lemma solar_disk_bundle_run (fuel n : nat) (center d : vec3)
  (radius ang_range : R) (pos : nat) :
  exists dx dy dz,
    length dx = n /\ length dy = n /\ length dz = n /\
    (forall j, j < n ->
       column (Arr2 n [dx; dy; dz]) j
       = Some (vec_list
                 (ray_direction rotation d
                    (0 + (ang_range - 0) * rng (pos + n + j))%R
                    (0 + (2 * PI - 0) * rng (pos + j))%R))) /\
    solar_disk_bundle rotation strict uninit_directions uninit_xs uninit_ys
      rng fuel n center d radius ang_range pos
    = match rejection_loop strict rng fuel radius (ones n)
              (map uninit_xs (seq 0 n)) (map uninit_ys (seq 0 n))
              (pos + n + n) with
      | None => None
      | Some (Raise e, p) => Some (Raise e, p)
      | Some (Ok (xs, ys), p) =>
          Some (Ok {| _vertices := Some (sampled_vertices n center d xs ys);
                      _direct := Some (Arr2 n [dx; dy; dz]);
                      _energy := None |}, p)
      end.
Proof.
  set (phi := fst (uniform rng 0%R (2 * PI)%R n pos)).
  set (theta := fst (uniform rng 0%R ang_range n (pos + n))).
  assert (Lphi : length phi = n) by apply uniform_length.
  assert (Ltheta : length theta = n) by apply uniform_length.
  assert (Hrays : Forall (fun ray => ray < n) (seq 0 n)).
  { apply Forall_forall. intros ray Hin. apply in_seq in Hin. lia. }
  destruct (direction_loop_columns (perp_axis d) d theta phi n Ltheta Lphi
              (seq 0 n)
              (map (uninit_directions 0) (seq 0 n))
              (map (uninit_directions 1) (seq 0 n))
              (map (uninit_directions 2) (seq 0 n)) Hrays)
    as (dx & dy & dz & Hloop & Lx & Ly & Lz & Hcols);
    try (now rewrite length_map, length_seq).
  exists dx, dy, dz.
  split; [exact Lx |]. split; [exact Ly |]. split; [exact Lz |]. split.
  - intros j Hj.
    apply (Hcols j).
    + unfold theta. now apply uniform_nth.
    + unfold phi. now apply uniform_nth.
    + apply in_seq. lia.
  - unfold solar_disk_bundle.
    rewrite (uniform_eta 0%R (2 * PI)%R n pos). cbv beta iota.
    rewrite (uniform_eta 0%R ang_range n (pos + n)). cbv beta iota zeta.
    fold phi theta. fold (perp_axis d). unfold empty_3xn. rewrite Hloop.
    destruct (rejection_loop strict rng fuel radius (ones n)
                (map uninit_xs (seq 0 n)) (map uninit_ys (seq 0 n))
                (pos + n + n)) as [[[[xs ys] | e] p] |]; try reflexivity.
    unfold make_bundle, dot_array, add_column, exec, set_vertices,
      set_directions, get_num_rays, mbind, getattr, lift, raise, bind.
    cbn [_vertices _direct _energy shape tuple_getitem nth_error length
         RayBundle_new].
    rewrite shape_ne_same. reflexivity.
Qed.

(** A bundle the generator returned: the points are those the rejection
    loop ended with, the directions those of the loop over the rays, and no
    energy is assigned. *)
Lemma solar_disk_bundle_returned (fuel n : nat) (center d : vec3)
  (radius ang_range : R) (pos pos' : nat) (b : RayBundle R) :
  solar_disk_bundle rotation strict uninit_directions uninit_xs uninit_ys
    rng fuel n center d radius ang_range pos
  = Some (Ok b, pos') ->
  exists xs ys dx dy dz,
    rejection_loop strict rng fuel radius (ones n)
      (map uninit_xs (seq 0 n)) (map uninit_ys (seq 0 n)) (pos + n + n)
    = Some (Ok (xs, ys), pos') /\
    b = {| _vertices := Some (sampled_vertices n center d xs ys);
           _direct := Some (Arr2 n [dx; dy; dz]);
           _energy := None |} /\
    forall j, j < n ->
      column (Arr2 n [dx; dy; dz]) j
      = Some (vec_list
                (ray_direction rotation d
                   (0 + (ang_range - 0) * rng (pos + n + j))%R
                   (0 + (2 * PI - 0) * rng (pos + j))%R)).
Proof.
  intros Hrun.
  destruct (solar_disk_bundle_run fuel n center d radius ang_range pos)
    as (dx & dy & dz & _ & _ & _ & Hcols & Hgen).
  rewrite Hgen in Hrun.
  destruct (rejection_loop _ _ _ _ _ _ _ _) as [[[[xs ys] | e] p] |];
    try discriminate.
  inversion Hrun; subst. exists xs, ys, dx, dy, dz. auto.
Qed.

End SolarDiskFacts.

(** Column [i] of the vertices array is the vertex of the point sampled for
    ray [i]. *)
Lemma sampled_vertex (n : nat) (center d : vec3) (xs ys : list R)
  (i : nat) (x y : R) :
  i < n -> nth_error xs i = Some x -> nth_error ys i = Some y ->
  column (sampled_vertices n center d xs ys) i
  = Some (vec_list (ray_vertex center d x y)).
Proof.
  intros Hi Hx Hy. unfold sampled_vertices. cbn [column column_of].
  apply Nat.ltb_lt in Hi as Hb. rewrite Hb.
  rewrite !nth_error_map.
  rewrite !(lincomb_nth _ xs ys (zeros n) i x y 0%R Hx Hy (zeros_nth n i Hi)).
  reflexivity.
Qed.

(** ** The generator when the first batch falls in the disk *)

Section FirstBatch.

Variable rotation : vec3 -> R -> mat3.
Variable strict : bool.
Variable uninit_directions : nat -> nat -> R.
Variable uninit_xs uninit_ys : nat -> R.
Variable rng : nat -> R.

Lemma solar_disk_bundle_first_batch (fuel n : nat) (center d : vec3)
  (radius ang_range : R) (pos : nat) :
  first_batch_inside rng radius n pos ->
  exists b,
    solar_disk_bundle rotation strict uninit_directions uninit_xs uninit_ys
      rng (S fuel) n center d radius ang_range pos
    = Some (Ok b, pos + n + n + n + n) /\
    eval (@get_num_rays R) b = Ok n /\
    _energy b = None /\
    forall i, i < n ->
      direction b i
      = Some (vec_list
                (ray_direction rotation d
                   (0 + (ang_range - 0) * rng (pos + n + i))%R
                   (0 + (2 * PI - 0) * rng (pos + i))%R)) /\
      vertex b i
      = Some (vec_list
                (ray_vertex center d
                   (square_draw rng radius (pos + n + n + i))
                   (square_draw rng radius (pos + n + n + n + i)))).
Proof.
  intros Hin.
  destruct (solar_disk_bundle_run rotation strict uninit_directions uninit_xs
              uninit_ys rng (S fuel) n center d radius ang_range pos)
    as (dx & dy & dz & Lx & Ly & Lz & Hcols & Hrun).
  rewrite (rejection_loop_first_batch strict rng fuel radius n
             (map uninit_xs (seq 0 n)) (map uninit_ys (seq 0 n)) (pos + n + n))
    in Hrun.
  - eexists. split; [exact Hrun |]. split; [reflexivity |].
    split; [reflexivity |]. intros i Hi. split.
    + exact (Hcols i Hi).
    + unfold vertex, eval, get_vertices, getattr, field_of.
      cbn [fst _vertices].
      apply sampled_vertex; [exact Hi | |]; now apply uniform_nth.
  - now rewrite length_map, length_seq.
  - now rewrite length_map, length_seq.
  - exact Hin.
Qed.

End FirstBatch.

Lemma sample_first_batch (radius : R) (n pos : nat) :
  first_batch_inside sample_rng radius n pos.
Proof.
  intros i _. unfold square_draw, sample_rng.
  replace (- radius + (radius - - radius) * (1 / 2))%R with 0%R by field.
  pose proof (pow2_ge_0 radius). lra.
Qed.

Lemma one_is_float_safe : float_safe_radius 1.
Proof. unfold float_safe_radius. lra. Qed.

(** ** Claims about the generator *)

(** C8. With [num_rays = 0] the generator returns, for any centre,
    direction, radius and angular range and with no fuel at all: the
    rejection loop ends at once, no variate is consumed (the position in the
    random sequence is the one the call started with), and the bundle has
    zero rays with 3-by-0 arrays of vertices and of directions. *)
Theorem no_rays_no_sampling (rotation : vec3 -> R -> mat3) (strict : bool)
  (uninit_directions : nat -> nat -> R) (uninit_xs uninit_ys rng : nat -> R)
  (fuel : nat) (center d : vec3) (radius ang_range : R) (pos : nat) :
  exists b,
    solar_disk_bundle rotation strict uninit_directions uninit_xs uninit_ys
      rng fuel 0 center d radius ang_range pos
    = Some (Ok b, pos) /\
    eval (@get_num_rays R) b = Ok 0 /\
    eval (@get_vertices R) b = Ok array_3x0 /\
    eval (@get_directions R) b = Ok array_3x0 /\
    rejection_loop strict rng fuel radius (ones 0) [] [] pos
    = Some (Ok ([], []), pos).
Proof.
  eexists. split.
  { unfold solar_disk_bundle. cbn [uniform seq map direction_loop].
    rewrite !Nat.add_0_r.
    rewrite (rejection_loop_done strict rng fuel radius (ones 0) [] [] pos
               eq_refl).
    reflexivity. }
  repeat split. now apply rejection_loop_done.
Qed.

(** C9. A bundle the generator returns has no energy: [get_energy] raises
    [UninitializedField] on it, and once the caller sets an energy array
    with one entry per ray the getter hands that array back. *)
Theorem energy_left_to_caller (rotation : vec3 -> R -> mat3) (strict : bool)
  (uninit_directions : nat -> nat -> R) (uninit_xs uninit_ys rng : nat -> R)
  (fuel n : nat) (center d : vec3) (radius ang_range : R) (pos pos' : nat)
  (b : RayBundle R) :
  solar_disk_bundle rotation strict uninit_directions uninit_xs uninit_ys
    rng fuel n center d radius ang_range pos
  = Some (Ok b, pos') ->
  eval (@get_energy R) b = Raise UninitializedField /\
  forall e, shape e = [n] ->
    exists b', set_energy e b = (Ok tt, b') /\ eval (@get_energy R) b' = Ok e.
Proof.
  intros Hrun.
  apply solar_disk_bundle_returned in Hrun
    as (xs & ys & dx & dy & dz & _ & -> & _).
  split; [reflexivity |].
  intros e He.
  unfold set_energy, get_num_rays, mbind, getattr, lift, raise.
  cbn [_vertices sampled_vertices shape tuple_getitem nth_error length].
  rewrite He, shape_ne_same. eexists. split; reflexivity.
Qed.

Lemma energy_left_to_caller_witness :
  exists b,
    sample_run 1 2 (Vec3 0 0 0) (Vec3 0 0 1) 1 0 = Some (Ok b, 8) /\
    eval (@get_energy R) b = Raise UninitializedField.
Proof.
  destruct (solar_disk_bundle_first_batch axis_angle_rotation true
              (fun _ _ => 0%R) (fun _ => 0%R) (fun _ => 0%R) sample_rng
              0 2 (Vec3 0 0 0) (Vec3 0 0 1) 1%R 0%R 0
              (sample_first_batch 1%R 2 0)) as (b & Hrun & _).
  exists b. split; [exact Hrun |].
  exact (proj1 (energy_left_to_caller _ _ _ _ _ _ _ _ _ _ _ _ _ _ b Hrun)).
Defined.



(** C6. With [ang_range = 0] and a unit [direction], every bundle the
    generator returns has [num_rays] rays and each of its directions is
    [direction] itself: the tilt angle of every ray is zero. The rotation
    primitive is any function that turns nothing by the zero angle and fixes
    a unit axis. *)
Theorem zero_range_keeps_direction (rotation : vec3 -> R -> mat3)
  (strict : bool) (uninit_directions : nat -> nat -> R)
  (uninit_xs uninit_ys rng : nat -> R)
  (fuel n : nat) (center d : vec3) (radius : R) (pos pos' : nat)
  (b : RayBundle R) :
  is_rotation rotation -> norm2 d = 1%R ->
  solar_disk_bundle rotation strict uninit_directions uninit_xs uninit_ys
    rng fuel n center d radius 0%R pos
  = Some (Ok b, pos') ->
  eval (@get_num_rays R) b = Ok n /\
  forall i, i < n -> direction b i = Some (vec_list d).
Proof.
  intros [Hzero Haxis] Hu Hrun.
  apply solar_disk_bundle_returned in Hrun
    as (xs & ys & dx & dy & dz & _ & -> & Hcols).
  split; [reflexivity |].
  intros i Hi.
  unfold direction, eval, get_directions, getattr, field_of.
  cbn [fst _direct]. rewrite (Hcols i Hi). unfold ray_direction.
  replace (0 + (0 - 0) * rng (pos + n + i)%nat)%R with 0%R by ring.
  rewrite Hzero by apply perp_axis_nonzero. now rewrite Haxis.
Qed.

Lemma zero_range_keeps_direction_witness :
  is_rotation axis_angle_rotation /\ norm2 (Vec3 0 0 1) = 1%R /\
  exists b,
    sample_run 1 2 (Vec3 0 0 0) (Vec3 0 0 1) 1 0 = Some (Ok b, 8) /\
    direction b 1 = Some [0; 0; 1]%R.
Proof.
  assert (Hu : norm2 (Vec3 0 0 1) = 1%R) by (cbv [norm2 inner c0 c1 c2]; ring).
  split; [exact axis_angle_is_rotation |]. split; [exact Hu |].
  destruct (solar_disk_bundle_first_batch axis_angle_rotation true
              (fun _ _ => 0%R) (fun _ => 0%R) (fun _ => 0%R) sample_rng
              0 2 (Vec3 0 0 0) (Vec3 0 0 1) 1%R 0%R 0
              (sample_first_batch 1%R 2 0)) as (b & Hrun & _).
  exists b. split; [exact Hrun |].
  destruct (zero_range_keeps_direction _ _ _ _ _ _ _ _ _ _ _ _ _ b
              axis_angle_is_rotation Hu Hrun) as [_ Hall].
  apply (Hall 1). lia.
Defined.

Lemma zero_radius_draws (rng : nat -> R) (n pos : nat) :
  Forall (fun x => x = 0%R) (fst (uniform rng (- 0) 0 n pos)).
Proof.
  unfold uniform. cbn [fst]. apply Forall_forall. intros x Hin.
  apply in_map_iff in Hin as (k & <- & _). ring.
Qed.

Lemma zero_radius_first_batch (rng : nat -> R) (n pos : nat) :
  first_batch_inside rng 0 n pos.
Proof.
  intros i _. unfold square_draw.
  replace (- 0 + (0 - - 0) * rng (pos + n + n + i)%nat)%R with 0%R by ring.
  replace (- 0 + (0 - - 0) * rng (pos + n + n + n + i)%nat)%R with 0%R
    by ring.
  lra.
Qed.

(** C7. With [radius = 0] the generator returns after one round of the
    rejection loop, whatever the other arguments are: the coordinates the
    loop hands back are all zero, the bundle has [num_rays] rays and every
    vertex is [center]. *)
Theorem zero_radius_collapses (rotation : vec3 -> R -> mat3) (strict : bool)
  (uninit_directions : nat -> nat -> R) (uninit_xs uninit_ys rng : nat -> R)
  (fuel n : nat) (center d : vec3) (ang_range : R) (pos : nat) :
  (exists xs ys,
     rejection_loop strict rng (S fuel) 0 (ones n)
       (map uninit_xs (seq 0 n)) (map uninit_ys (seq 0 n)) (pos + n + n)
     = Some (Ok (xs, ys), pos + n + n + n + n) /\
     Forall (fun x => x = 0%R) xs /\ Forall (fun y => y = 0%R) ys) /\
  exists b,
    solar_disk_bundle rotation strict uninit_directions uninit_xs uninit_ys
      rng (S fuel) n center d 0 ang_range pos
    = Some (Ok b, pos + n + n + n + n) /\
    eval (@get_num_rays R) b = Ok n /\
    forall i, i < n -> vertex b i = Some (vec_list center).
Proof.
  split.
  - eexists _, _. split.
    + apply rejection_loop_first_batch;
        [now rewrite length_map, length_seq
        | now rewrite length_map, length_seq
        | apply zero_radius_first_batch].
    + split; apply zero_radius_draws.
  - destruct (solar_disk_bundle_first_batch rotation strict uninit_directions
                uninit_xs uninit_ys rng fuel n center d 0%R ang_range pos
                (zero_radius_first_batch rng n pos))
      as (b & Hrun & Hn & _ & Hall).
    exists b. split; [exact Hrun |]. split; [exact Hn |].
    intros i Hi. destruct (Hall i Hi) as [_ Hv]. rewrite Hv.
    f_equal. f_equal.
    apply vec3_eq; cbv [ray_vertex vadd dot inner square_draw c0 c1 c2]; ring.
Qed.

Lemma zero_radius_collapses_witness :
  exists b,
    sample_run 1 2 (Vec3 1 2 3) (Vec3 0 0 1) 0 (1 / 2) = Some (Ok b, 8) /\
    vertex b 0 = Some [1; 2; 3]%R /\ vertex b 1 = Some [1; 2; 3]%R.
Proof.
  destruct (zero_radius_collapses axis_angle_rotation true
              (fun _ _ => 0%R) (fun _ => 0%R) (fun _ => 0%R) sample_rng
              0 2 (Vec3 1 2 3) (Vec3 0 0 1) (1 / 2)%R 0)
    as (_ & b & Hrun & _ & Hall).
  exists b. split; [exact Hrun |]. split.
  - apply (Hall 0). lia.
  - apply (Hall 1). lia.
Defined.

Lemma perp_axis_zero : perp_axis (Vec3 0 0 0) = Vec3 1 0 0.
Proof.
  destruct (perp_axis_cases (Vec3 0 0 0)) as [(_ & _ & H) | ([H | H] & _)];
    [exact H | |]; exfalso; apply H; reflexivity.
Qed.

(** C4, as amended. With [direction = (0,0,0)] the generator does not fail:
    [perp] falls back to [(1,0,0)]; every bundle the call returns has
    [num_rays] rays whose directions are all the zero vector; and, for a
    radius in the range where the squares of line 103 neither underflow nor
    overflow, the call does return, after one round of the rejection loop,
    when the first batch of points falls in the disk, vertex [i] being
    [center] moved along the x axis by the first coordinate drawn for ray
    [i]. *)
Theorem zero_direction_goes_through (rotation : vec3 -> R -> mat3)
  (strict : bool) (uninit_directions : nat -> nat -> R)
  (uninit_xs uninit_ys rng : nat -> R)
  (n : nat) (center : vec3) (radius ang_range : R) (pos : nat) :
  perp_axis (Vec3 0 0 0) = Vec3 1 0 0 /\
  (forall fuel b pos',
     solar_disk_bundle rotation strict uninit_directions uninit_xs uninit_ys
       rng fuel n center (Vec3 0 0 0) radius ang_range pos
     = Some (Ok b, pos') ->
     eval (@get_num_rays R) b = Ok n /\
     forall i, i < n -> direction b i = Some [0; 0; 0]%R) /\
  (float_safe_radius radius -> first_batch_inside rng radius n pos ->
   forall fuel,
   exists b,
     solar_disk_bundle rotation strict uninit_directions uninit_xs uninit_ys
       rng (S fuel) n center (Vec3 0 0 0) radius ang_range pos
     = Some (Ok b, pos + n + n + n + n) /\
     forall i, i < n ->
       vertex b i
       = Some (vec_list
                 (vadd (Vec3 (square_draw rng radius (pos + n + n + i)) 0 0)
                       center))).
Proof.
  split; [exact perp_axis_zero |]. split.
  - intros fuel b pos' Hrun.
    apply solar_disk_bundle_returned in Hrun
      as (xs & ys & dx & dy & dz & _ & -> & Hcols).
    split; [reflexivity |].
    intros i Hi.
    unfold direction, eval, get_directions, getattr, field_of.
    cbn [fst _direct]. rewrite (Hcols i Hi). unfold ray_direction.
    now rewrite !dot_zero.
  - intros _ Hin fuel.
    destruct (solar_disk_bundle_first_batch rotation strict uninit_directions
                uninit_xs uninit_ys rng fuel n center (Vec3 0 0 0) radius
                ang_range pos Hin)
      as (b & Hrun & _ & _ & Hall).
    exists b. split; [exact Hrun |].
    intros i Hi. destruct (Hall i Hi) as [_ Hv].
    rewrite Hv. f_equal. f_equal. unfold ray_vertex, disk_frame.
    rewrite perp_axis_zero.
    apply vec3_eq; cbv [vadd dot inner vstack cross row0 row1 row2 c0 c1 c2];
      ring.
Qed.

Lemma zero_direction_goes_through_witness :
  float_safe_radius 1 /\ first_batch_inside sample_rng 1 2 0 /\
  exists b,
    sample_run 1 2 (Vec3 1 2 3) (Vec3 0 0 0) 1 (1 / 2) = Some (Ok b, 8) /\
    direction b 1 = Some [0; 0; 0]%R.
Proof.
  split; [exact one_is_float_safe |].
  split; [exact (sample_first_batch 1%R 2 0) |].
  destruct (zero_direction_goes_through axis_angle_rotation true
              (fun _ _ => 0%R) (fun _ => 0%R) (fun _ => 0%R) sample_rng
              2 (Vec3 1 2 3) 1%R (1 / 2)%R 0)
    as (_ & Hall & Hret).
  destruct (Hret one_is_float_safe (sample_first_batch 1%R 2 0) 0)
    as (b & Hrun & _).
  exists b. split; [exact Hrun |].
  apply (proj2 (Hall 1 b 8 Hrun) 1). lia.
Defined.

(** C4 as it was stated fails: called with [direction = (0,0,0)] on the
    sample run, the generator raises nothing; it returns a bundle of two
    rays whose first direction is the zero vector. *)
Lemma zero_direction_returns_bundle :
  match sample_run 1 2 (Vec3 1 2 3) (Vec3 0 0 0) 1 (1 / 2) with
  | Some (Ok b, _) =>
      eval (@get_num_rays R) b = Ok 2 /\ direction b 0 = Some [0; 0; 0]%R
  | _ => False
  end.
Proof.
  destruct (solar_disk_bundle_first_batch axis_angle_rotation true
              (fun _ _ => 0%R) (fun _ => 0%R) (fun _ => 0%R) sample_rng
              0 2 (Vec3 1 2 3) (Vec3 0 0 0) 1%R (1 / 2)%R 0
              (sample_first_batch 1%R 2 0))
    as (b & Hrun & Hn & _ & Hall).
  unfold sample_run. rewrite Hrun. split; [exact Hn |].
  destruct (Hall 0) as [Hd _]; [lia |].
  rewrite Hd. unfold ray_direction. now rewrite !dot_zero.
Qed.

(** * Further properties of the module *)

(** ** More about the container class *)

Local Open Scope nat_scope.

Lemma shape_ne_false (s t : list nat) : shape_ne s t = false -> s = t.
Proof.
  unfold shape_ne. destruct (list_eq_dec Nat.eq_dec s t); [auto | discriminate].
Qed.

Lemma zip_app_assoc (T : Type) (x y z : list (list T)) :
  zip_app (zip_app x y) z = zip_app x (zip_app y z).
Proof.
  revert y z. induction x as [| a x IH]; intros [| b y] [| c z]; simpl;
    try reflexivity.
  now rewrite IH, app_assoc.
Qed.

(** X1. Whenever [a + b] returns, all six arrays of the operands were set,
    the new arrays are the [hstack]s of the operands' arrays, and the new
    bundle keeps the shape contract of the class: directions of shape
    [(3, n)] and energy of shape [(n,)] for the number [n] of columns of
    the new vertices. The operands need not keep that contract themselves. *)
Theorem add_result_keeps_contract (T : Type) (a b c : RayBundle T) :
  __add__ a b = Ok c ->
  exists va vb da db ea eb v d e n,
    _vertices a = Some va /\ _vertices b = Some vb /\
    _direct a = Some da /\ _direct b = Some db /\
    _energy a = Some ea /\ _energy b = Some eb /\
    hstack va vb = Ok v /\ hstack da db = Ok d /\ hstack ea eb = Ok e /\
    c = {| _vertices := Some v; _direct := Some d; _energy := Some e |} /\
    eval (@get_num_rays T) c = Ok n /\ shape d = [3; n] /\ shape e = [n].
Proof.
  unfold __add__, eval, exec, get_vertices, get_directions, get_energy, getattr.
  destruct (_vertices a) as [va |]; [| discriminate].
  destruct (_vertices b) as [vb |]; [| discriminate].
  cbn [fst bind].
  destruct (hstack va vb) as [v |] eqn:Hv; [| discriminate].
  cbn [bind set_vertices].
  destruct (_direct a) as [da |]; [| discriminate].
  destruct (_direct b) as [db |]; [| discriminate].
  cbn [fst bind].
  destruct (hstack da db) as [d |] eqn:Hd; [| discriminate].
  cbn [bind]. unfold set_directions, set_energy, get_num_rays, mbind, getattr,
    lift, raise.
  cbn [_vertices _direct _energy RayBundle_new].
  destruct (tuple_getitem (shape v) 1) as [n |] eqn:Hn; [| discriminate].
  destruct (shape_ne (shape d) [3; n]) eqn:Sd; [discriminate |].
  cbn [bind _vertices _direct _energy].
  destruct (_energy a) as [ea |]; [| discriminate].
  destruct (_energy b) as [eb |]; [| discriminate].
  cbn [fst bind].
  destruct (hstack ea eb) as [e |] eqn:He; [| discriminate].
  cbn [bind]. rewrite Hn.
  destruct (shape_ne (shape e) [n]) eqn:Se; [discriminate |].
  cbn [bind]. intros H. inversion H; subst c.
  exists va, vb, da, db, ea, eb, v, d, e, n.
  apply shape_ne_false in Sd, Se.
  repeat split; auto.
Qed.

Lemma add_result_keeps_contract_witness :
  exists c n,
    __add__ bundle_one bundle_two = Ok c /\
    eval (@get_num_rays R) c = Ok n /\
    (exists d, _direct c = Some d /\ shape d = [3; n]).
Proof.
  assert (Hadd : exists c, __add__ bundle_one bundle_two = Ok c)
    by (eexists; reflexivity).
  destruct Hadd as [c Hadd].
  destruct (@add_result_keeps_contract R bundle_one bundle_two c Hadd)
    as (va & vb & da & db & ea & eb & v & d & e & n & _ & _ & _ & _ & _ & _
        & _ & _ & _ & Hc & Hn & Sd & _).
  exists c, n. split; [exact Hadd |]. split; [exact Hn |].
  exists d. split; [| exact Sd]. rewrite Hc. reflexivity.
Defined.

(** X2. Merging is associative on bundles that keep the contract:
    [(a + b) + c] and [a + (b + c)] both return, and return the same
    bundle. *)
Theorem add_associative (T : Type) (a b c : RayBundle T) (na nb nc : nat) :
  consistent a na -> consistent b nb -> consistent c nc ->
  exists r,
    bind (__add__ a b) (fun ab => __add__ ab c) = Ok r /\
    bind (__add__ b c) (fun bc => __add__ a bc) = Ok r.
Proof.
  intros Ca Cb Cc.
  apply consistent_arrays in Ca
    as (a0 & a1 & a2 & da0 & da1 & da2 & ea & Hva & Hda & Hea & _ & _ & Lea).
  apply consistent_arrays in Cb
    as (b0 & b1 & b2 & db0 & db1 & db2 & eb & Hvb & Hdb & Heb & _ & _ & Leb).
  apply consistent_arrays in Cc
    as (c0' & c1' & c2' & dc0 & dc1 & dc2 & ec & Hvc & Hdc & Hec & _ & _ & Lec).
  rewrite (add_three_rows a b Hva Hda Hea Hvb Hdb Heb) by (simpl; lia).
  rewrite (add_three_rows b c Hvb Hdb Heb Hvc Hdc Hec) by (simpl; lia).
  cbn [bind].
  match goal with
  | |- context [__add__ ?ab c] =>
      rewrite (@add_three_rows T ab c (na + nb) nc (na + nb) nc _ _ _ _ _ _
                 eq_refl eq_refl eq_refl Hvc Hdc Hec)
        by (try reflexivity; rewrite length_app; lia)
  end.
  match goal with
  | |- context [__add__ a ?bc] =>
      rewrite (@add_three_rows T a bc na (nb + nc) na (nb + nc) _ _ _ _ _ _
                 Hva Hda Hea eq_refl eq_refl eq_refl)
        by (try reflexivity; rewrite length_app; lia)
  end.
  eexists. split; [reflexivity |].
  now rewrite !zip_app_assoc, app_assoc, Nat.add_assoc.
Qed.

Lemma add_associative_witness :
  consistent bundle_one 1 /\ consistent bundle_two 2 /\
  exists r,
    bind (__add__ bundle_one bundle_two) (fun ab => __add__ ab bundle_one)
    = Ok r /\
    bind (__add__ bundle_two bundle_one) (fun bc => __add__ bundle_one bc)
    = Ok r.
Proof.
  split; [exact bundle_one_consistent |].
  split; [exact bundle_two_consistent |].
  exact (@add_associative R bundle_one bundle_two bundle_one 1 2 1
           bundle_one_consistent bundle_two_consistent bundle_one_consistent).
Defined.

(** X3. The empty bundle is a right identity as well: for a bundle [a]
    that keeps the contract, [a + empty] returns [a]. *)
Theorem empty_is_right_identity (T : Type) (a : RayBundle T) (n : nat) :
  consistent a n ->
  exists e, empty_bund a = Ok e /\ __add__ a e = Ok a.
Proof.
  intros Ca.
  apply consistent_arrays in Ca
    as (v0 & v1 & v2 & d0 & d1 & d2 & ea & Hva & Hda & Hea & Rva & Rda & Lea).
  eexists. split; [apply empty_bund_value |].
  rewrite (@add_three_rows T a _ n 0 n 0 [v0; v1; v2] [[]; []; []]
             [d0; d1; d2] [[]; []; []] ea []); simpl; auto.
  rewrite !app_nil_r, Nat.add_0_r.
  destruct a as [va da ea']. simpl in *. now subst.
Qed.

Lemma empty_is_right_identity_witness :
  consistent bundle_two 2 /\
  exists e, empty_bund bundle_two = Ok e /\ __add__ bundle_two e = Ok bundle_two.
Proof.
  split; [exact bundle_two_consistent |].
  exact (@empty_is_right_identity R bundle_two 2 bundle_two_consistent).
Defined.

(** X4. The two validating setters are all or nothing, on every bundle and
    for every array: a call that raises leaves the bundle as it was; a call
    that returns has changed the one attribute only, and it returns only
    when the ray count [n] can be read and the array has the shape
    [(3, n)], for directions, or [(n,)], for energy. *)
Theorem setters_all_or_nothing (T : Type) (b : RayBundle T) (x : ndarray T) :
  (forall e, fst (set_directions x b) = Raise e ->
     snd (set_directions x b) = b) /\
  (fst (set_directions x b) = Ok tt ->
     snd (set_directions x b)
     = {| _vertices := _vertices b; _direct := Some x; _energy := _energy b |}
     /\ exists n, eval (@get_num_rays T) b = Ok n /\ shape x = [3; n]) /\
  (forall e, fst (set_energy x b) = Raise e -> snd (set_energy x b) = b) /\
  (fst (set_energy x b) = Ok tt ->
     snd (set_energy x b)
     = {| _vertices := _vertices b; _direct := _direct b; _energy := Some x |}
     /\ exists n, eval (@get_num_rays T) b = Ok n /\ shape x = [n]).
Proof.
  unfold set_directions, set_energy, eval, get_num_rays, mbind, getattr, lift,
    raise.
  destruct b as [[v |] db eb]; cbn [fst snd _vertices _direct _energy];
    [destruct (tuple_getitem (shape v) 1) as [n |]; cbn [fst snd];
     [destruct (shape_ne (shape x) [3; n]) eqn:Sd;
      destruct (shape_ne (shape x) [n]) eqn:Se; cbn [fst snd] | ] | ];
    (split; [| split; [| split]]); intros; try discriminate;
    try reflexivity;
    (split; [reflexivity | exists n; split;
                           [reflexivity | now apply shape_ne_false]]).
Qed.

Lemma setters_all_or_nothing_witness :
  snd (set_directions (Arr1 [1%R]) bundle_two) = bundle_two /\
  snd (set_energy (Arr1 [1%R; 2%R]) bundle_two)
  = {| _vertices := _vertices bundle_two; _direct := _direct bundle_two;
       _energy := Some (Arr1 [1%R; 2%R]) |}.
Proof.
  split.
  - apply (proj1 (@setters_all_or_nothing R bundle_two (Arr1 [1%R]))
             ValueError eq_refl).
  - apply (proj2 (proj2 (proj2
             (@setters_all_or_nothing R bundle_two (Arr1 [1%R; 2%R]))))
             eq_refl).
Defined.

(** X5. [set_vertices] takes a rank-one array without complaint, on any
    bundle; after that the ray count cannot be read ([shape[1]] is out of
    range), and both validating setters raise [IndexError] for every array
    and store nothing. *)
Theorem rank_one_vertices_block_setters (T : Type) (b : RayBundle T)
  (data : list T) (x : ndarray T) :
  let b' := snd (set_vertices (Arr1 data) b) in
  fst (set_vertices (Arr1 data) b) = Ok tt /\
  eval (@get_vertices T) b' = Ok (Arr1 data) /\
  eval (@get_num_rays T) b' = Raise IndexError /\
  set_directions x b' = (Raise IndexError, b') /\
  set_energy x b' = (Raise IndexError, b').
Proof.
  repeat split.
Qed.

(** X6. [set_vertices] checks nothing against the other attributes: called
    on a bundle that keeps the contract for [n] rays with an array of
    [m <> n] columns, it returns, the ray count becomes [m], the getters
    still hand back the old directions and energy, and handing those very
    arrays to their setters again now raises [ValueError]. *)
Theorem resize_leaves_stale_arrays (T : Type) (a : RayBundle T)
  (w : ndarray T) (n r m : nat) :
  consistent a n -> shape w = [r; m] -> m <> n ->
  let b := snd (set_vertices w a) in
  fst (set_vertices w a) = Ok tt /\
  eval (@get_num_rays T) b = Ok m /\
  exists d e,
    eval (@get_directions T) a = Ok d /\ eval (@get_energy T) a = Ok e /\
    eval (@get_directions T) b = Ok d /\ eval (@get_energy T) b = Ok e /\
    set_directions d b = (Raise ValueError, b) /\
    set_energy e b = (Raise ValueError, b).
Proof.
  intros Ca Sw Hne.
  destruct Ca as (v & d & e & Hv & Hd & He & _ & _ & _ & Sd & Se).
  cbn zeta. split; [reflexivity |].
  unfold eval, set_directions, set_energy, set_vertices, get_num_rays,
    get_directions, get_energy, mbind, getattr, lift, raise.
  cbn [fst snd _vertices _direct _energy]. rewrite Sw, Hd, He.
  cbn [tuple_getitem nth_error fst]. split; [reflexivity |].
  exists d, e. rewrite Sd, Se.
  rewrite !shape_ne_diff by (intros E; inversion E; auto).
  repeat split.
Qed.

Lemma resize_leaves_stale_arrays_witness :
  consistent bundle_two 2 /\ 1 <> 2 /\
  eval (@get_num_rays R) bundle_resized = Ok 1 /\
  exists d,
    eval (@get_directions R) bundle_resized = Ok d /\
    set_directions d bundle_resized = (Raise ValueError, bundle_resized).
Proof.
  split; [exact bundle_two_consistent |].
  assert (Hne : 1 <> 2) by discriminate. split; [exact Hne |].
  destruct (@resize_leaves_stale_arrays R bundle_two
              (Arr2 1 [[1]; [2]; [3]]%R) 2 3 1
              bundle_two_consistent eq_refl Hne)
    as (_ & Hn & d & e & _ & _ & Hd & _ & Hsd & _).
  split; [exact Hn |]. exists d. split; [exact Hd | exact Hsd].
Defined.

(** ** More about the generator *)

Lemma lincomb_length (r : vec3) (xs ys zs : list R) (n : nat) :
  length xs = n -> length ys = n -> length zs = n ->
  length (lincomb r xs ys zs) = n.
Proof.
  revert ys zs n.
  induction xs as [| x xs IH]; intros [| y ys] [| z zs] n; simpl;
    intros; subst; try discriminate; try reflexivity.
  f_equal. apply IH; lia.
Qed.

Lemma outside_length (xs ys : list R) (r2 : R) :
  length xs = length ys -> length (outside xs ys r2) = length xs.
Proof.
  revert ys. induction xs as [| x xs IH]; intros [| y ys]; simpl;
    try discriminate; try reflexivity.
  intros H. f_equal. apply IH. lia.
Qed.

Lemma outside_nth (xs ys : list R) (r2 : R) (i : nat) (x y : R) :
  nth_error xs i = Some x -> nth_error ys i = Some y ->
  nth_error (outside xs ys r2) i = Some (Rgtb (x ^ 2 + y ^ 2) r2).
Proof.
  revert ys i. induction xs as [| x' xs IH]; intros [| y' ys] [| i]; simpl;
    try discriminate.
  - intros. congruence.
  - apply IH.
Qed.

Lemma any_nth_true (mask : list bool) (i : nat) :
  nth_error mask i = Some true -> any mask = true.
Proof.
  revert i. induction mask as [| m mask IH]; intros [| i]; simpl;
    try discriminate.
  - intros H. inversion H. reflexivity.
  - intros H. rewrite (IH i H). apply orb_true_r.
Qed.

Lemma count_true_le (mask : list bool) : count_true mask <= length mask.
Proof.
  unfold count_true. induction mask as [| [|] mask IH]; simpl; lia.
Qed.

Lemma count_true_lt (mask : list bool) (i : nat) :
  nth_error mask i = Some false -> count_true mask < length mask.
Proof.
  revert i. induction mask as [| m mask IH]; intros [| i]; simpl;
    try discriminate.
  - intros H. inversion H. subst m.
    pose proof (count_true_le mask). unfold count_true in *. simpl. lia.
  - intros H. specialize (IH i H). unfold count_true in *.
    destruct m; simpl; lia.
Qed.

(** An entry the mask does not select is not written. *)
Lemma put_mask_keeps (xs : list R) (mask : list bool) (vals : list R)
  (i : nat) :
  nth_error mask i = Some false ->
  nth_error (put_mask xs mask vals) i = nth_error xs i.
Proof.
  revert mask vals i.
  induction xs as [| x xs IH]; intros [| m mask] vals [| i]; simpl;
    try discriminate; try reflexivity.
  - intros H. inversion H. reflexivity.
  - intros H. destruct m; [destruct vals |]; simpl; now apply IH.
Qed.

Section MoreSolarDiskFacts.

Variable rotation : vec3 -> R -> mat3.
Variable strict : bool.
Variable uninit_directions : nat -> nat -> R.
Variable uninit_xs uninit_ys : nat -> R.
Variable rng : nat -> R.

Lemma setitem_mask_keeps (xs : list R) (mask : list bool) (vals xs' : list R)
  (i : nat) :
  setitem_mask strict xs mask vals = Ok xs' ->
  nth_error mask i = Some false ->
  nth_error xs' i = nth_error xs i.
Proof.
  unfold setitem_mask.
  destruct (negb (length mask =? length xs)); [discriminate |].
  destruct strict.
  - destruct (length vals =? count_true mask).
    + intros H Hm. inversion H. now apply put_mask_keeps.
    + destruct vals as [| v [| w vals]]; try discriminate.
      intros H Hm. inversion H. now apply put_mask_keeps.
  - intros H Hm. inversion H. now apply put_mask_keeps.
Qed.

(** With a mask as long as the array the assignment can only fail in one
    way: the strict behaviour refusing the surplus of values. *)
Lemma setitem_mask_outcome (xs : list R) (mask : list bool) (vals : list R)
  (e : exn) :
  length mask = length xs ->
  setitem_mask strict xs mask vals = Raise e ->
  strict = true /\ e = ValueError.
Proof.
  intros Hl. unfold setitem_mask. rewrite Hl, Nat.eqb_refl. cbn [negb].
  destruct strict; [| discriminate].
  destruct (length vals =? count_true mask); [discriminate |].
  destruct vals as [| v [| w vals]]; try discriminate;
    intros H; inversion H; auto.
Qed.

(** The first round, whatever falls where: every entry is redrawn and the
    loop goes on with the mask of the points that fell outside. *)
Lemma rejection_loop_first_round (fuel : nat) (radius : R) (n : nat)
  (xs ys : list R) (pos : nat) :
  0 < n -> length xs = n -> length ys = n ->
  rejection_loop strict rng (S fuel) radius (ones n) xs ys pos
  = rejection_loop strict rng fuel radius
      (outside (fst (uniform rng (- radius) radius n pos))
               (fst (uniform rng (- radius) radius n (pos + n)))
               (radius ^ 2))
      (fst (uniform rng (- radius) radius n pos))
      (fst (uniform rng (- radius) radius n (pos + n)))
      (pos + n + n).
Proof.
  intros Hn Hx Hy.
  assert (Hany : any (ones n) = true) by (destruct n; [lia | reflexivity]).
  cbn [rejection_loop]. rewrite Hany, ones_length.
  rewrite (uniform_eta rng (- radius) radius n pos) at 1. cbv beta iota.
  rewrite (setitem_mask_ones strict xs _ n Hx (uniform_length rng _ _ n pos)).
  rewrite (uniform_eta rng (- radius) radius n (pos + n)) at 1. cbv beta iota.
  rewrite (setitem_mask_ones strict ys _ n Hy
             (uniform_length rng _ _ n (pos + n))).
  reflexivity.
Qed.

End MoreSolarDiskFacts.

Section RejectionFacts.

Variable strict : bool.
Variable rng : nat -> R.

(** The loop raises nothing but the [ValueError] of a refused assignment. *)
Lemma rejection_loop_raises (fuel : nat) (radius : R) :
  forall (mask : list bool) (xs ys : list R) (pos : nat) (e : exn) (p : nat),
  length mask = length xs -> length mask = length ys ->
  rejection_loop strict rng fuel radius mask xs ys pos = Some (Raise e, p) ->
  strict = true /\ e = ValueError.
Proof.
  induction fuel as [| fuel IH]; intros mask xs ys pos e p Lx Ly Hrun;
    cbn [rejection_loop] in Hrun; destruct (any mask); try discriminate.
  rewrite (uniform_eta rng (- radius) radius (length mask) pos) in Hrun.
  cbv beta iota in Hrun.
  destruct (setitem_mask strict xs mask _) as [xs1 | e1] eqn:Hsx.
  - rewrite (uniform_eta rng (- radius) radius (length mask)
               (pos + length mask)) in Hrun.
    cbv beta iota in Hrun.
    destruct (setitem_mask strict ys mask _) as [ys1 | e2] eqn:Hsy.
    + apply setitem_mask_length in Hsx. apply setitem_mask_length in Hsy.
      apply IH in Hrun; [exact Hrun | |].
      * rewrite outside_length; congruence.
      * rewrite outside_length; congruence.
    + inversion Hrun; subst e2. exact (setitem_mask_outcome _ _ _ _ _ Ly Hsy).
  - inversion Hrun; subst e1. exact (setitem_mask_outcome _ _ _ _ _ Lx Hsx).
Qed.

(** A point that lies in the disk when a round starts is still there, with
    the same coordinates, when the loop returns. *)
Lemma rejection_loop_keeps (fuel : nat) (radius : R) :
  forall (xs ys : list R) (pos : nat) (xs' ys' : list R) (pos' : nat),
  rejection_loop strict rng fuel radius (outside xs ys (radius ^ 2)) xs ys pos
  = Some (Ok (xs', ys'), pos') ->
  forall i x y, nth_error xs i = Some x -> nth_error ys i = Some y ->
    (x ^ 2 + y ^ 2 <= radius ^ 2)%R ->
    nth_error xs' i = Some x /\ nth_error ys' i = Some y.
Proof.
  induction fuel as [| fuel IH]; intros xs ys pos xs' ys' pos' Hrun i x y Hx Hy Hin;
    cbn [rejection_loop] in Hrun;
    destruct (any (outside xs ys (radius ^ 2))); try discriminate;
    try (inversion Hrun; subst; now split).
  rewrite (uniform_eta rng (- radius) radius _ pos) in Hrun.
  cbv beta iota in Hrun.
  destruct (setitem_mask strict xs _ _) as [xs1 |] eqn:Hsx; [| discriminate].
  rewrite (uniform_eta rng (- radius) radius _ (pos + _)) in Hrun.
  cbv beta iota in Hrun.
  destruct (setitem_mask strict ys _ _) as [ys1 |] eqn:Hsy; [| discriminate].
  assert (Hm : nth_error (outside xs ys (radius ^ 2)) i = Some false).
  { rewrite (outside_nth xs ys _ i x y Hx Hy). f_equal.
    now apply Rgtb_false. }
  apply (IH xs1 ys1 _ xs' ys' pos' Hrun i x y); [| | exact Hin].
  - rewrite (setitem_mask_keeps strict _ _ _ _ i Hsx Hm). exact Hx.
  - rewrite (setitem_mask_keeps strict _ _ _ _ i Hsy Hm). exact Hy.
Qed.

(** Every round draws two variates for every ray, selected or not: a loop
    that returns has moved the position by [2 * n] a number of times that
    the fuel bounds. *)
Lemma rejection_loop_draws (fuel : nat) (radius : R) :
  forall (mask : list bool) (xs ys : list R) (pos : nat)
         (xs' ys' : list R) (pos' : nat),
  length mask = length xs -> length mask = length ys ->
  rejection_loop strict rng fuel radius mask xs ys pos
  = Some (Ok (xs', ys'), pos') ->
  exists rounds,
    rounds <= fuel /\ pos' = pos + rounds * (2 * length mask) /\
    (any mask = true -> 1 <= rounds).
Proof.
  induction fuel as [| fuel IH]; intros mask xs ys pos xs' ys' pos' Lx Ly Hrun;
    cbn [rejection_loop] in Hrun; destruct (any mask) eqn:Hany;
    try discriminate.
  - inversion Hrun; subst. exists 0.
    split; [lia | split; [lia | discriminate]].
  - rewrite (uniform_eta rng (- radius) radius (length mask) pos) in Hrun.
    cbv beta iota in Hrun.
    destruct (setitem_mask strict xs mask _) as [xs1 |] eqn:Hsx;
      [| discriminate].
    rewrite (uniform_eta rng (- radius) radius (length mask)
               (pos + length mask)) in Hrun.
    cbv beta iota in Hrun.
    destruct (setitem_mask strict ys mask _) as [ys1 |] eqn:Hsy;
      [| discriminate].
    apply setitem_mask_length in Hsx. apply setitem_mask_length in Hsy.
    apply IH in Hrun as (k & Hk & Hpos & _).
    + rewrite outside_length in Hpos by congruence.
      exists (S k). split; [lia | split; [| lia]].
      rewrite Hpos. lia.
    + rewrite outside_length; congruence.
    + rewrite outside_length; congruence.
  - inversion Hrun; subst. exists 0.
    split; [lia | split; [lia | discriminate]].
Qed.

End RejectionFacts.

Lemma Rgtb_true (x y : R) : (x > y)%R -> Rgtb x y = true.
Proof.
  intros H. unfold Rgtb. destruct (Rgt_dec x y); [reflexivity | contradiction].
Qed.

(** Under the strict assignment a first batch that is split between the
    disk and its outside stops the loop in the second round: the batch of
    [n] values is refused for the fewer entries the mask selects. *)
Lemma rejection_loop_split_batch (rng : nat -> R) (fuel : nat) (radius : R)
  (n : nat) (xs ys : list R) (pos i j : nat) :
  length xs = n -> length ys = n -> i < n -> j < n ->
  (square_draw rng radius (pos + i) ^ 2
   + square_draw rng radius (pos + n + i) ^ 2 <= radius ^ 2)%R ->
  (square_draw rng radius (pos + j) ^ 2
   + square_draw rng radius (pos + n + j) ^ 2 > radius ^ 2)%R ->
  rejection_loop true rng (S (S fuel)) radius (ones n) xs ys pos
  = Some (Raise ValueError, pos + n + n + n).
Proof.
  intros Lx Ly Hi Hj Hin Hout.
  rewrite (rejection_loop_first_round true rng (S fuel) radius n xs ys pos)
    by (auto; lia).
  set (vx := fst (uniform rng (- radius) radius n pos)).
  set (vy := fst (uniform rng (- radius) radius n (pos + n))).
  set (mask := outside vx vy (radius ^ 2)).
  assert (Lvx : length vx = n) by apply uniform_length.
  assert (Lvy : length vy = n) by apply uniform_length.
  assert (Lm : length mask = n)
    by (unfold mask; rewrite outside_length; congruence).
  assert (Mi : nth_error mask i = Some false).
  { unfold mask.
    rewrite (outside_nth vx vy _ i _ _ (uniform_nth rng _ _ n pos i Hi)
               (uniform_nth rng _ _ n (pos + n) i Hi)).
    f_equal. apply Rgtb_false. exact Hin. }
  assert (Mj : nth_error mask j = Some true).
  { unfold mask.
    rewrite (outside_nth vx vy _ j _ _ (uniform_nth rng _ _ n pos j Hj)
               (uniform_nth rng _ _ n (pos + n) j Hj)).
    f_equal. apply Rgtb_true. exact Hout. }
  cbn [rejection_loop]. rewrite (any_nth_true mask j Mj), Lm.
  rewrite (uniform_eta rng (- radius) radius n (pos + n + n)).
  cbv beta iota.
  assert (Hset : setitem_mask true vx mask
                   (fst (uniform rng (- radius) radius n (pos + n + n)))
                 = Raise ValueError).
  { unfold setitem_mask. rewrite Lm, Lvx, Nat.eqb_refl. cbn [negb].
    rewrite uniform_length.
    pose proof (count_true_lt mask i Mi) as Hc. rewrite Lm in Hc.
    replace (n =? count_true mask) with false
      by (symmetry; apply Nat.eqb_neq; lia).
    assert (Hij : i <> j) by (intros ->; congruence).
    destruct n as [| [| m]]; try lia. reflexivity. }
  rewrite Hset. reflexivity.
Qed.

Section GeneratedBundles.

Variable rotation : vec3 -> R -> mat3.
Variable strict : bool.
Variable uninit_directions : nat -> nat -> R.
Variable uninit_xs uninit_ys : nat -> R.
Variable rng : nat -> R.

(** A returned bundle, with the lengths of everything in it. *)
Lemma solar_disk_bundle_returned_lengths (fuel n : nat) (center d : vec3)
  (radius ang_range : R) (pos pos' : nat) (b : RayBundle R) :
  solar_disk_bundle rotation strict uninit_directions uninit_xs uninit_ys
    rng fuel n center d radius ang_range pos
  = Some (Ok b, pos') ->
  exists xs ys dx dy dz,
    rejection_loop strict rng fuel radius (ones n)
      (map uninit_xs (seq 0 n)) (map uninit_ys (seq 0 n)) (pos + n + n)
    = Some (Ok (xs, ys), pos') /\
    b = {| _vertices := Some (sampled_vertices n center d xs ys);
           _direct := Some (Arr2 n [dx; dy; dz]);
           _energy := None |} /\
    length xs = n /\ length ys = n /\
    length dx = n /\ length dy = n /\ length dz = n.
Proof.
  intros Hrun.
  destruct (solar_disk_bundle_run rotation strict uninit_directions uninit_xs
              uninit_ys rng fuel n center d radius ang_range pos)
    as (dx & dy & dz & Lx & Ly & Lz & _ & Hgen).
  rewrite Hgen in Hrun.
  destruct (rejection_loop _ _ _ _ _ _ _ _) as [[[[xs ys] | e] p] |] eqn:Hloop;
    try discriminate.
  assert (Hb : b = {| _vertices := Some (sampled_vertices n center d xs ys);
                      _direct := Some (Arr2 n [dx; dy; dz]);
                      _energy := None |} /\ p = pos')
    by (inversion Hrun; auto).
  destruct Hb as [Hb ->].
  exists xs, ys, dx, dy, dz. split; [reflexivity |]. split; [exact Hb |].
  apply rejection_loop_inside in Hloop as (Hx & Hy & _).
  - rewrite length_map, length_seq in Hx, Hy. auto.
  - intros Hany. apply any_ones_false in Hany. rewrite Hany.
    intros [| i] x y Hx0; discriminate.
Qed.

(** X7. Whatever the arguments, a bundle the generator returns is well
    formed: vertices and directions are rectangular arrays of shape
    [(3, num_rays)], the ray count is [num_rays], every ray below it has a
    vertex and a direction, and no energy is assigned. *)
Theorem generated_bundle_is_3_by_n (fuel n : nat) (center d : vec3)
  (radius ang_range : R) (pos pos' : nat) (b : RayBundle R) :
  solar_disk_bundle rotation strict uninit_directions uninit_xs uninit_ys
    rng fuel n center d radius ang_range pos
  = Some (Ok b, pos') ->
  exists v dirs,
    _vertices b = Some v /\ _direct b = Some dirs /\ _energy b = None /\
    shape v = [3; n] /\ shape dirs = [3; n] /\
    rectangular v /\ rectangular dirs /\
    eval (@get_num_rays R) b = Ok n /\
    forall i, i < n -> vertex b i <> None /\ direction b i <> None.
Proof.
  intros Hrun.
  apply solar_disk_bundle_returned_lengths in Hrun
    as (xs & ys & dx & dy & dz & _ & -> & Lx & Ly & Ldx & Ldy & Ldz).
  assert (Rv : rectangular (sampled_vertices n center d xs ys)).
  { unfold sampled_vertices. cbn [rectangular].
    repeat constructor; rewrite length_map;
      apply lincomb_length; auto; apply repeat_length. }
  assert (Rd : rectangular (Arr2 n [dx; dy; dz])).
  { cbn [rectangular]. repeat constructor; assumption. }
  eexists _, _. split; [reflexivity |]. split; [reflexivity |].
  split; [reflexivity |]. split; [reflexivity |]. split; [reflexivity |].
  split; [exact Rv |]. split; [exact Rd |]. split; [reflexivity |].
  intros i Hi.
  unfold vertex, direction, eval, get_vertices, get_directions, getattr,
    field_of.
  cbn [fst _vertices _direct]. unfold sampled_vertices in *.
  cbn [column rectangular] in *.
  apply Nat.ltb_lt in Hi as Hb. rewrite Hb. apply Nat.ltb_lt in Hb.
  split; eapply column_of_defined; eauto.
Qed.

(** X8. For a radius in the range where the squares of line 103 neither
    underflow nor overflow, the generator raises nothing of its own: the
    only exception a call can end with is the [ValueError] of a masked
    assignment refused under the strict behaviour. Where NumPy takes the
    leading values, the call never raises. (Beyond that range [radius**2]
    raises [OverflowError], which the real-number reading does not show.) *)
Theorem generator_raises_only_value_error (fuel n : nat) (center d : vec3)
  (radius ang_range : R) (pos p : nat) (e : exn) :
  float_safe_radius radius ->
  solar_disk_bundle rotation strict uninit_directions uninit_xs uninit_ys
    rng fuel n center d radius ang_range pos
  = Some (Raise e, p) ->
  strict = true /\ e = ValueError.
Proof.
  intros _ Hrun.
  destruct (solar_disk_bundle_run rotation strict uninit_directions uninit_xs
              uninit_ys rng fuel n center d radius ang_range pos)
    as (dx & dy & dz & _ & _ & _ & _ & Hgen).
  rewrite Hgen in Hrun.
  destruct (rejection_loop _ _ _ _ _ _ _ _) as [[[[xs ys] | e'] p'] |] eqn:Hloop;
    try discriminate.
  inversion Hrun; subst e' p'.
  apply rejection_loop_raises in Hloop; [exact Hloop | |];
    now rewrite ones_length, length_map, length_seq.
Qed.

(** X11. The draws of a call that returns: [num_rays] variates for [phi],
    [num_rays] for [theta], and in every round of the rejection loop
    [2 * num_rays] more, however few points were rejected. The rounds are
    bounded by the fuel, and there is at least one when there are rays. *)
Theorem generator_draws_per_round (fuel n : nat) (center d : vec3)
  (radius ang_range : R) (pos pos' : nat) (b : RayBundle R) :
  solar_disk_bundle rotation strict uninit_directions uninit_xs uninit_ys
    rng fuel n center d radius ang_range pos
  = Some (Ok b, pos') ->
  exists rounds,
    rounds <= fuel /\ (0 < n -> 1 <= rounds) /\
    pos' = pos + 2 * n + rounds * (2 * n).
Proof.
  intros Hrun.
  apply solar_disk_bundle_returned_lengths in Hrun
    as (xs & ys & dx & dy & dz & Hloop & _).
  apply rejection_loop_draws in Hloop as (k & Hk & Hpos & Hone);
    try (now rewrite ones_length, length_map, length_seq).
  rewrite ones_length in Hpos.
  exists k. split; [exact Hk |]. split; [| lia].
  intros Hn. apply Hone. destruct n; [lia | reflexivity].
Qed.

(** X9. Under the strict assignment, and for a radius in the range where
    the squares of line 103 neither underflow nor overflow, the generator
    cannot finish a second round: when the first batch puts the point of
    some ray in the disk and the point of another outside, the call ends
    with [ValueError] at the first assignment of the second round, after
    [5 * num_rays] variates. *)
Theorem strict_split_batch_raises (fuel n : nat) (center d : vec3)
  (radius ang_range : R) (pos i j : nat) :
  float_safe_radius radius -> strict = true -> i < n -> j < n ->
  (square_draw rng radius (pos + n + n + i) ^ 2
   + square_draw rng radius (pos + n + n + n + i) ^ 2 <= radius ^ 2)%R ->
  (square_draw rng radius (pos + n + n + j) ^ 2
   + square_draw rng radius (pos + n + n + n + j) ^ 2 > radius ^ 2)%R ->
  solar_disk_bundle rotation strict uninit_directions uninit_xs uninit_ys
    rng (S (S fuel)) n center d radius ang_range pos
  = Some (Raise ValueError, pos + n + n + n + n + n).
Proof.
  intros _ Hs Hi Hj Hin Hout.
  destruct (solar_disk_bundle_run rotation strict uninit_directions uninit_xs
              uninit_ys rng (S (S fuel)) n center d radius ang_range pos)
    as (dx & dy & dz & _ & _ & _ & _ & Hgen).
  rewrite Hgen, Hs.
  rewrite (rejection_loop_split_batch rng fuel radius n
             (map uninit_xs (seq 0 n)) (map uninit_ys (seq 0 n))
             (pos + n + n) i j); auto;
    now rewrite length_map, length_seq.
Qed.

(** X10. Only rejected points are replaced: for a radius in the range
    where the squares of line 103 neither underflow nor overflow and for
    every ray whose point of the first batch falls in the disk, a bundle
    the generator returns, after however many rounds, has the vertex built
    from that very point. *)
Theorem accepted_point_is_kept (fuel n : nat) (center d : vec3)
  (radius ang_range : R) (pos pos' : nat) (b : RayBundle R) (i : nat) :
  float_safe_radius radius ->
  solar_disk_bundle rotation strict uninit_directions uninit_xs uninit_ys
    rng fuel n center d radius ang_range pos
  = Some (Ok b, pos') ->
  i < n ->
  (square_draw rng radius (pos + n + n + i) ^ 2
   + square_draw rng radius (pos + n + n + n + i) ^ 2 <= radius ^ 2)%R ->
  vertex b i
  = Some (vec_list
            (ray_vertex center d
               (square_draw rng radius (pos + n + n + i))
               (square_draw rng radius (pos + n + n + n + i)))).
Proof.
  intros _ Hrun Hi Hin.
  apply solar_disk_bundle_returned_lengths in Hrun
    as (xs & ys & dx & dy & dz & Hloop & -> & _).
  destruct fuel as [| fuel'].
  { cbn [rejection_loop] in Hloop.
    replace (any (ones n)) with true in Hloop
      by (destruct n; [lia | reflexivity]).
    discriminate. }
  rewrite rejection_loop_first_round in Hloop
    by (try lia; now rewrite length_map, length_seq).
  destruct (rejection_loop_keeps strict rng fuel' radius _ _ _ xs ys pos' Hloop
              i _ _
              (uniform_nth rng (- radius) radius n (pos + n + n) i Hi)
              (uniform_nth rng (- radius) radius n (pos + n + n + n) i Hi)
              Hin) as [Hx Hy].
  unfold vertex, eval, get_vertices, getattr, field_of. cbn [fst _vertices].
  now apply sampled_vertex.
Qed.

(** The plane of the vertices, read off the frame: the third row is
    [direction], the second is [direction x perp]. *)
Lemma ray_vertex_plane (center d : vec3) (x y : R) :
  (c0 d = 0 -> c1 d = 0 -> c2 (ray_vertex center d x y) = c2 center)%R /\
  (c0 d <> 0 \/ c1 d <> 0 ->
   c1 (ray_vertex center d x y) - c1 center
   = c2 d * (c2 (ray_vertex center d x y) - c2 center))%R.
Proof.
  unfold ray_vertex, disk_frame. split.
  - intros H0 H1.
    cbv [vadd dot inner vstack row0 row1 row2 c0 c1 c2].
    destruct d as [a b c]. cbv [c0 c1] in H0, H1. subst a b. ring.
  - intros Hnz.
    destruct (perp_axis_cases d) as [(H0 & H1 & _) | (_ & ->)].
    + destruct Hnz; contradiction.
    + destruct d as [a b c].
      cbv [vadd dot inner vstack cross row0 row1 row2 c0 c1 c2]. ring.
Qed.

(** X12. The vertices of a returned bundle lie in one plane through
    [center], read off the frame: the plane [z = center.z] when
    [direction] is parallel to the z axis, and otherwise the plane
    [y - center.y = direction.z * (z - center.z)], which contains the x
    axis through [center]. For a horizontal [direction] that is the plane
    [y = center.y], whichever way [direction] points. *)
Theorem vertices_lie_in_one_plane (fuel n : nat) (center d : vec3)
  (radius ang_range : R) (pos pos' : nat) (b : RayBundle R) :
  solar_disk_bundle rotation strict uninit_directions uninit_xs uninit_ys
    rng fuel n center d radius ang_range pos
  = Some (Ok b, pos') ->
  forall i, i < n ->
    exists w,
      vertex b i = Some (vec_list w) /\
      (c0 d = 0 -> c1 d = 0 -> c2 w = c2 center)%R /\
      (c0 d <> 0 \/ c1 d <> 0 ->
       c1 w - c1 center = c2 d * (c2 w - c2 center))%R /\
      (c0 d <> 0 \/ c1 d <> 0 -> c2 d = 0 -> c1 w = c1 center)%R.
Proof.
  intros Hrun i Hi.
  apply solar_disk_bundle_returned_lengths in Hrun
    as (xs & ys & dx & dy & dz & _ & -> & Lx & Ly & _).
  destruct (nth_error xs i) as [x |] eqn:Ex;
    [| apply nth_error_None in Ex; lia].
  destruct (nth_error ys i) as [y |] eqn:Ey;
    [| apply nth_error_None in Ey; lia].
  exists (ray_vertex center d x y).
  destruct (ray_vertex_plane center d x y) as [Hz Hy].
  split; [| split; [exact Hz | split; [exact Hy |]]].
  - unfold vertex, eval, get_vertices, getattr, field_of.
    cbn [fst _vertices]. now apply sampled_vertex.
  - intros Hnz H2. specialize (Hy Hnz). rewrite H2 in Hy. lra.
Qed.

(** X13. Two bundles the generator returned cannot be merged as they are:
    [b1 + b2] raises [AttributeError], the energy being unset. Once the
    caller has set an energy of the right length on each, they merge into a
    bundle of [n1 + n2] rays whose energy is the two energies joined. *)
Theorem generated_bundles_merge (fuel1 fuel2 n1 n2 : nat)
  (center1 center2 d1 d2 : vec3) (radius1 radius2 range1 range2 : R)
  (pos1 pos2 pos1' pos2' : nat) (b1 b2 : RayBundle R) :
  solar_disk_bundle rotation strict uninit_directions uninit_xs uninit_ys
    rng fuel1 n1 center1 d1 radius1 range1 pos1
  = Some (Ok b1, pos1') ->
  solar_disk_bundle rotation strict uninit_directions uninit_xs uninit_ys
    rng fuel2 n2 center2 d2 radius2 range2 pos2
  = Some (Ok b2, pos2') ->
  __add__ b1 b2 = Raise AttributeError /\
  forall e1 e2, length e1 = n1 -> length e2 = n2 ->
    exists c,
      __add__ (snd (set_energy (Arr1 e1) b1)) (snd (set_energy (Arr1 e2) b2))
      = Ok c /\
      eval (@get_num_rays R) c = Ok (n1 + n2) /\
      eval (@get_energy R) c = Ok (Arr1 (e1 ++ e2)).
Proof.
  intros Hrun1 Hrun2.
  apply solar_disk_bundle_returned_lengths in Hrun1
    as (xs1 & ys1 & dx1 & dy1 & dz1 & _ & -> & _).
  apply solar_disk_bundle_returned_lengths in Hrun2
    as (xs2 & ys2 & dx2 & dy2 & dz2 & _ & -> & _).
  split.
  - unfold __add__, eval, exec, get_vertices, get_directions, get_energy,
      set_vertices, set_directions, get_num_rays, mbind, getattr, lift, raise,
      sampled_vertices.
    cbn [fst bind _vertices _direct _energy hstack length Nat.eqb
         RayBundle_new shape tuple_getitem nth_error zip_app].
    rewrite shape_ne_same. reflexivity.
  - intros e1 e2 L1 L2.
    unfold set_energy at 1 2. unfold get_num_rays, mbind, getattr, lift, raise,
      sampled_vertices.
    cbn [_vertices shape tuple_getitem nth_error length].
    rewrite L1, L2, !shape_ne_same. cbn [snd _vertices _direct _energy].
    eexists. split.
    + apply add_three_rows with (nda := n1) (ndb := n2);
        try reflexivity; lia.
    + split; reflexivity.
Qed.

End GeneratedBundles.

(** The split batch of [split_rng], for two rays on a disk of radius 1. *)
Lemma split_batch_inside :
  (square_draw split_rng 1 (0 + 2 + 2 + 0) ^ 2
   + square_draw split_rng 1 (0 + 2 + 2 + 2 + 0) ^ 2 <= 1 ^ 2)%R.
Proof. unfold square_draw, split_rng. cbn [Nat.add]. lra. Qed.

Lemma split_batch_outside :
  (square_draw split_rng 1 (0 + 2 + 2 + 1) ^ 2
   + square_draw split_rng 1 (0 + 2 + 2 + 2 + 1) ^ 2 > 1 ^ 2)%R.
Proof. unfold square_draw, split_rng. cbn [Nat.add]. lra. Qed.

Lemma split_run_raises :
  solar_disk_bundle axis_angle_rotation true (fun _ _ => 0%R) (fun _ => 0%R)
    (fun _ => 0%R) split_rng 2 2 (Vec3 1 2 3) (Vec3 0 0 1) 1 0 0
  = Some (Raise ValueError, 10).
Proof.
  destruct (solar_disk_bundle_run axis_angle_rotation true (fun _ _ => 0%R)
              (fun _ => 0%R) (fun _ => 0%R) split_rng 2 2 (Vec3 1 2 3)
              (Vec3 0 0 1) 1%R 0%R 0)
    as (dx & dy & dz & _ & _ & _ & _ & Hgen).
  rewrite Hgen.
  rewrite (rejection_loop_split_batch split_rng 0 1%R 2
             (map (fun _ => 0%R) (seq 0 2)) (map (fun _ => 0%R) (seq 0 2))
             (0 + 2 + 2) 0 1 eq_refl eq_refl);
    [reflexivity | lia | lia | exact split_batch_inside
    | exact split_batch_outside].
Qed.

Lemma sample_run_returns :
  exists b, sample_run 1 2 (Vec3 1 2 3) (Vec3 0 0 1) 1 0 = Some (Ok b, 8).
Proof.
  destruct (solar_disk_bundle_first_batch axis_angle_rotation true
              (fun _ _ => 0%R) (fun _ => 0%R) (fun _ => 0%R) sample_rng
              0 2 (Vec3 1 2 3) (Vec3 0 0 1) 1%R 0%R 0
              (sample_first_batch 1%R 2 0)) as (b & Hrun & _).
  now exists b.
Qed.

Lemma generated_bundle_is_3_by_n_witness :
  exists b,
    sample_run 1 2 (Vec3 1 2 3) (Vec3 0 0 1) 1 0 = Some (Ok b, 8) /\
    eval (@get_num_rays R) b = Ok 2 /\ vertex b 1 <> None.
Proof.
  destruct sample_run_returns as [b Hrun]. exists b. split; [exact Hrun |].
  destruct (generated_bundle_is_3_by_n _ _ _ _ _ _ _ _ _ _ _ _ _ _ b Hrun)
    as (v & dirs & _ & _ & _ & _ & _ & _ & _ & Hn & Hall).
  split; [exact Hn |]. apply (Hall 1). lia.
Defined.

Lemma generator_raises_only_value_error_witness :
  solar_disk_bundle axis_angle_rotation true (fun _ _ => 0%R) (fun _ => 0%R)
    (fun _ => 0%R) split_rng 2 2 (Vec3 1 2 3) (Vec3 0 0 1) 1 0 0
  = Some (Raise ValueError, 10) /\
  float_safe_radius 1 /\ true = true /\ ValueError = ValueError.
Proof.
  split; [exact split_run_raises |]. split; [exact one_is_float_safe |].
  exact (generator_raises_only_value_error _ _ _ _ _ _ _ _ _ _ _ _ _ _ _
           one_is_float_safe split_run_raises).
Defined.

Lemma generator_draws_per_round_witness :
  exists b rounds,
    sample_run 1 2 (Vec3 1 2 3) (Vec3 0 0 1) 1 0 = Some (Ok b, 8) /\
    rounds <= 1 /\ 8 = 0 + 2 * 2 + rounds * (2 * 2).
Proof.
  destruct sample_run_returns as [b Hrun].
  destruct (generator_draws_per_round _ _ _ _ _ _ _ _ _ _ _ _ _ _ b Hrun)
    as (k & Hk & _ & Hpos).
  exists b, k. split; [exact Hrun |]. split; [exact Hk | exact Hpos].
Defined.

Lemma strict_split_batch_raises_witness :
  solar_disk_bundle axis_angle_rotation true (fun _ _ => 0%R) (fun _ => 0%R)
    (fun _ => 0%R) split_rng 2 2 (Vec3 1 2 3) (Vec3 0 0 1) 1 0 0
  = Some (Raise ValueError, 0 + 2 + 2 + 2 + 2 + 2).
Proof.
  apply (strict_split_batch_raises axis_angle_rotation true (fun _ _ => 0%R)
           (fun _ => 0%R) (fun _ => 0%R) split_rng 0 2 (Vec3 1 2 3)
           (Vec3 0 0 1) 1%R 0%R 0 0 1 one_is_float_safe eq_refl);
    [lia | lia | exact split_batch_inside | exact split_batch_outside].
Defined.

Lemma accepted_point_is_kept_witness :
  exists b,
    sample_run 1 2 (Vec3 1 2 3) (Vec3 0 0 1) 1 0 = Some (Ok b, 8) /\
    vertex b 0
    = Some (vec_list
              (ray_vertex (Vec3 1 2 3) (Vec3 0 0 1)
                 (square_draw sample_rng 1 (0 + 2 + 2 + 0))
                 (square_draw sample_rng 1 (0 + 2 + 2 + 2 + 0)))).
Proof.
  destruct sample_run_returns as [b Hrun]. exists b. split; [exact Hrun |].
  apply (accepted_point_is_kept _ _ _ _ _ _ _ _ _ _ _ _ _ _ b 0
           one_is_float_safe Hrun);
    [lia | apply (sample_first_batch 1%R 2 0); lia].
Defined.

Lemma vertices_lie_in_one_plane_witness :
  exists b w,
    sample_run 1 2 (Vec3 1 2 3) (Vec3 0 0 1) 1 0 = Some (Ok b, 8) /\
    vertex b 0 = Some (vec_list w) /\ c2 w = 3%R.
Proof.
  destruct sample_run_returns as [b Hrun].
  destruct (vertices_lie_in_one_plane _ _ _ _ _ _ _ _ _ _ _ _ _ _ b Hrun 0)
    as (w & Hv & Hz & _); [lia |].
  exists b, w. split; [exact Hrun |]. split; [exact Hv |].
  apply Hz; reflexivity.
Defined.

Lemma generated_bundles_merge_witness :
  exists b,
    sample_run 1 2 (Vec3 1 2 3) (Vec3 0 0 1) 1 0 = Some (Ok b, 8) /\
    __add__ b b = Raise AttributeError /\
    exists c,
      __add__ (snd (set_energy (Arr1 [1; 1]%R) b))
              (snd (set_energy (Arr1 [2; 2]%R) b)) = Ok c /\
      eval (@get_num_rays R) c = Ok 4.
Proof.
  destruct sample_run_returns as [b Hrun]. exists b. split; [exact Hrun |].
  destruct (generated_bundles_merge _ _ _ _ _ _ _ _ _ _ _ _ _ _ _ _ _ _ _ _
              _ _ b b Hrun Hrun) as [Hraise Hmerge].
  split; [exact Hraise |].
  destruct (Hmerge [1; 1]%R [2; 2]%R eq_refl eq_refl) as (c & Hc & Hn & _).
  exists c. split; [exact Hc | exact Hn].
Defined.

(** ** What [N.empty] hands out never shows *)

Lemma list_eq_by_nth (l1 l2 : list R) (n : nat) :
  length l1 = n -> length l2 = n ->
  (forall j, j < n -> nth_error l1 j = nth_error l2 j) ->
  l1 = l2.
Proof.
  revert l2 n. induction l1 as [| x l1 IH]; intros [| y l2] n L1 L2 H;
    simpl in *; subst; try discriminate; try reflexivity.
  f_equal.
  - assert (E := H 0 ltac:(lia)). simpl in E. congruence.
  - apply (IH l2 (length l1)); [reflexivity | lia |].
    intros j Hj. apply (H (S j)). lia.
Qed.

Lemma column_rows (n : nat) (dx dy dz : list R) (j : nat) (v : vec3) :
  column (Arr2 n [dx; dy; dz]) j = Some (vec_list v) ->
  nth_error dx j = Some (c0 v) /\ nth_error dy j = Some (c1 v) /\
  nth_error dz j = Some (c2 v).
Proof.
  cbn [column column_of]. destruct (j <? n); [| discriminate].
  destruct (nth_error dx j), (nth_error dy j), (nth_error dz j);
    try discriminate.
  unfold vec_list. intros H. inversion H. auto.
Qed.

(** The first round overwrites both coordinate arrays, so the loop does
    not depend on what they held. *)
Lemma rejection_loop_ignores_initial (strict : bool) (rng : nat -> R)
  (fuel : nat) (radius : R) (n : nat) (xs1 ys1 xs2 ys2 : list R) (pos : nat) :
  length xs1 = n -> length ys1 = n -> length xs2 = n -> length ys2 = n ->
  rejection_loop strict rng fuel radius (ones n) xs1 ys1 pos
  = rejection_loop strict rng fuel radius (ones n) xs2 ys2 pos.
Proof.
  intros Lx1 Ly1 Lx2 Ly2. destruct n as [| n].
  - destruct xs1, ys1, xs2, ys2; try discriminate. reflexivity.
  - destruct fuel as [| fuel]; [reflexivity |].
    rewrite !rejection_loop_first_round by (auto; lia). reflexivity.
Qed.

(** X14. The generator never reads the storage [N.empty] hands out: two
    calls that differ only in what the fresh arrays for the directions and
    for the coordinates happen to hold end the same way, with the same
    bundle at the same position of the random sequence. *)
Theorem uninitialised_storage_never_shows (rotation : vec3 -> R -> mat3)
  (strict : bool) (rng : nat -> R)
  (directions1 directions2 : nat -> nat -> R) (xs1 ys1 xs2 ys2 : nat -> R)
  (fuel n : nat) (center d : vec3) (radius ang_range : R) (pos : nat) :
  solar_disk_bundle rotation strict directions1 xs1 ys1 rng
    fuel n center d radius ang_range pos
  = solar_disk_bundle rotation strict directions2 xs2 ys2 rng
      fuel n center d radius ang_range pos.
Proof.
  destruct (solar_disk_bundle_run rotation strict directions1 xs1 ys1 rng
              fuel n center d radius ang_range pos)
    as (dx & dy & dz & Lx & Ly & Lz & Hcols & ->).
  destruct (solar_disk_bundle_run rotation strict directions2 xs2 ys2 rng
              fuel n center d radius ang_range pos)
    as (dx' & dy' & dz' & Lx' & Ly' & Lz' & Hcols' & ->).
  assert (Hrows : forall j, j < n ->
            nth_error dx j = nth_error dx' j /\
            nth_error dy j = nth_error dy' j /\
            nth_error dz j = nth_error dz' j).
  { intros j Hj.
    destruct (column_rows n dx dy dz j _ (Hcols j Hj)) as (A0 & A1 & A2).
    destruct (column_rows n dx' dy' dz' j _ (Hcols' j Hj)) as (B0 & B1 & B2).
    repeat split; congruence. }
  rewrite (list_eq_by_nth dx dx' n Lx Lx' (fun j Hj => proj1 (Hrows j Hj))).
  rewrite (list_eq_by_nth dy dy' n Ly Ly'
             (fun j Hj => proj1 (proj2 (Hrows j Hj)))).
  rewrite (list_eq_by_nth dz dz' n Lz Lz'
             (fun j Hj => proj2 (proj2 (Hrows j Hj)))).
  rewrite (rejection_loop_ignores_initial strict rng fuel radius n
             (map xs1 (seq 0 n)) (map ys1 (seq 0 n))
             (map xs2 (seq 0 n)) (map ys2 (seq 0 n)) (pos + n + n));
    try (now rewrite length_map, length_seq).
  reflexivity.
Qed.

(** * Outside the safe range of radii *)

(** ** The float64 run at a tiny radius *)

Local Open Scope R_scope.










(** ** The float64 run at a radius whose square overflows *)

Local Open Scope nat_scope.

Lemma float_uniform_length (rng : nat -> PrimFloat.float)
  (low high : PrimFloat.float) (size pos : nat) :
  length (fst (Float64.uniform rng low high size pos)) = size.
Proof. unfold Float64.uniform. cbn [fst]. now rewrite length_map, length_seq. Qed.




